(** * DeLand: the hash-chained land ledger

    A shallow embedding of the ledger server of the repository (the Go
    program with [calculateHash], [getLastHash], [createEntry],
    [addEntryHandler] and [verifyLedgerHandler]) and the properties of its
    append and verify paths.

    Go strings are byte strings: they are modelled by [string], whose
    characters are the bytes.  [int64] and [rune] values are integers in [Z]
    with the wrap-around of the conversions written out. *)

From Stdlib Require Import ZArith List String Ascii Bool Lia.
From Stdlib Require Import Permutation Sorted.
Import ListNotations.

Local Open Scope list_scope.
Local Open Scope string_scope.
Local Open Scope Z_scope.

(** ** crypto/sha256 and encoding/hex

    [calculateHash] calls [sha256.Sum256] and [hex.EncodeToString].  Both are
    embedded here (FIPS 180-4 on 32-bit words held in [Z]) so that the
    ledger functions evaluate on concrete records. *)

Module Sha256.

Local Open Scope list_scope.

Definition w32 (x : Z) : Z := Z.land x 0xffffffff.

Definition add32 (x y : Z) : Z := w32 (x + y).

Definition rotr (n x : Z) : Z :=
  Z.lor (Z.shiftr x n) (w32 (Z.shiftl x (32 - n))).

Definition Ch (x y z : Z) : Z :=
  Z.lxor (Z.land x y) (Z.land (Z.lxor x 0xffffffff) z).

Definition Maj (x y z : Z) : Z :=
  Z.lxor (Z.lxor (Z.land x y) (Z.land x z)) (Z.land y z).

Definition bsig0 (x : Z) : Z := Z.lxor (Z.lxor (rotr 2 x) (rotr 13 x)) (rotr 22 x).
Definition bsig1 (x : Z) : Z := Z.lxor (Z.lxor (rotr 6 x) (rotr 11 x)) (rotr 25 x).
Definition ssig0 (x : Z) : Z := Z.lxor (Z.lxor (rotr 7 x) (rotr 18 x)) (Z.shiftr x 3).
Definition ssig1 (x : Z) : Z := Z.lxor (Z.lxor (rotr 17 x) (rotr 19 x)) (Z.shiftr x 10).

(** The round constants are the first thirty-two bits of the fractional
    parts of the cube roots of the first sixty-four primes, the initial
    words those of the square roots of the first eight. *)
Definition primes : list Z :=
  [ 2; 3; 5; 7; 11; 13; 17; 19; 23; 29; 31; 37; 41; 43; 47; 53;
    59; 61; 67; 71; 73; 79; 83; 89; 97; 101; 103; 107; 109; 113; 127; 131;
    137; 139; 149; 151; 157; 163; 167; 173; 179; 181; 191; 193; 197; 199; 211; 223;
    227; 229; 233; 239; 241; 251; 257; 263; 269; 271; 277; 281; 283; 293; 307; 311 ].

(** The integer cube root of [n] below [2 ^ bits], one bit at a time. *)
Fixpoint cbrt (bits : nat) (n r : Z) : Z :=
  match bits with
  | O => r
  | S b =>
      let r' := r + 2 ^ Z.of_nat b in
      cbrt b n (if r' * r' * r' <=? n then r' else r)
  end.

Definition K : list Z :=
  Eval vm_compute in map (fun p => w32 (cbrt 36 (p * 2 ^ 96) 0)) primes.

Record digest : Type := Digest
  { h0 : Z; h1 : Z; h2 : Z; h3 : Z; h4 : Z; h5 : Z; h6 : Z; h7 : Z }.

Definition frac_sqrt (p : Z) : Z := w32 (Z.sqrt (p * 2 ^ 64)).

Definition init : digest :=
  Eval vm_compute in
    Digest (frac_sqrt 2) (frac_sqrt 3) (frac_sqrt 5) (frac_sqrt 7)
           (frac_sqrt 11) (frac_sqrt 13) (frac_sqrt 17) (frac_sqrt 19).

(** Big-endian word of four bytes. *)
Definition be32 (b : list Z) : Z :=
  fold_left (fun acc x => Z.lor (Z.shiftl acc 8) x) b 0.

Fixpoint words (n : nat) (bytes : list Z) : list Z :=
  match n with
  | O => []
  | S n' => be32 (firstn 4 bytes) :: words n' (skipn 4 bytes)
  end.

(** One more word of the message schedule. *)
Definition extend (w : list Z) : list Z :=
  let n := List.length w in
  let at_ (k : nat) := nth (n - k) w 0 in
  w ++ [add32 (add32 (add32 (ssig1 (at_ 2%nat)) (at_ 7%nat)) (ssig0 (at_ 15%nat)))
              (at_ 16%nat)].

Definition schedule (block : list Z) : list Z :=
  Nat.iter 48 extend (words 16 block).

Definition round (s : digest) (kw : Z * Z) : digest :=
  let t1 := add32 (add32 (add32 (add32 (h7 s) (bsig1 (h4 s)))
                                (Ch (h4 s) (h5 s) (h6 s))) (fst kw)) (snd kw) in
  let t2 := add32 (bsig0 (h0 s)) (Maj (h0 s) (h1 s) (h2 s)) in
  Digest (add32 t1 t2) (h0 s) (h1 s) (h2 s) (add32 (h3 s) t1) (h4 s) (h5 s) (h6 s).

Definition compress (s : digest) (block : list Z) : digest :=
  let r := fold_left round (combine K (schedule block)) s in
  Digest (add32 (h0 s) (h0 r)) (add32 (h1 s) (h1 r))
         (add32 (h2 s) (h2 r)) (add32 (h3 s) (h3 r))
         (add32 (h4 s) (h4 r)) (add32 (h5 s) (h5 r))
         (add32 (h6 s) (h6 r)) (add32 (h7 s) (h7 r)).

(** The message followed by 0x80, zero bytes up to 56 modulo 64, and the
    bit length on eight bytes. *)
Definition pad (msg : list Z) : list Z :=
  let len := Z.of_nat (List.length msg) in
  let zeros := Z.to_nat ((55 - len) mod 64) in
  let bits := 8 * len in
  msg ++ [0x80] ++ repeat 0 zeros
      ++ map (fun i => Z.land (Z.shiftr bits (8 * i)) 0xff) [7; 6; 5; 4; 3; 2; 1; 0].

Fixpoint blocks (fuel : nat) (bytes : list Z) : list (list Z) :=
  match fuel, bytes with
  | S fuel', _ :: _ => firstn 64 bytes :: blocks fuel' (skipn 64 bytes)
  | _, _ => []
  end.

Definition sum256 (msg : list Z) : digest :=
  let p := pad msg in
  fold_left compress (blocks (List.length p) p) init.

End Sha256.

Module Hex.

Definition digit (n : Z) : ascii :=
  ascii_of_N (Z.to_N (if n <? 10 then 48 + n else 87 + n)).

(** The eight lower-case hexadecimal digits of a 32-bit word. *)
Definition word (w : Z) : string :=
  String (digit (Z.land (Z.shiftr w 28) 15))
 (String (digit (Z.land (Z.shiftr w 24) 15))
 (String (digit (Z.land (Z.shiftr w 20) 15))
 (String (digit (Z.land (Z.shiftr w 16) 15))
 (String (digit (Z.land (Z.shiftr w 12) 15))
 (String (digit (Z.land (Z.shiftr w 8) 15))
 (String (digit (Z.land (Z.shiftr w 4) 15))
 (String (digit (Z.land w 15)) EmptyString))))))).

Definition EncodeToString (d : Sha256.digest) : string :=
  word (Sha256.h0 d) ++ word (Sha256.h1 d) ++ word (Sha256.h2 d)
    ++ word (Sha256.h3 d) ++ word (Sha256.h4 d) ++ word (Sha256.h5 d)
    ++ word (Sha256.h6 d) ++ word (Sha256.h7 d).

End Hex.

(** The bytes of a Go string. *)
Definition bytes_of (s : string) : list Z :=
  map (fun c => Z.of_N (N_of_ascii c)) (list_ascii_of_string s).

(** [calculateHash]: SHA-256 of the bytes, as lower-case hexadecimal. *)
Definition calculateHash (data : string) : string :=
  Hex.EncodeToString (Sha256.sum256 (bytes_of data)).

(** ** The data model *)

Record LedgerEntry : Type := mkLedgerEntry
  { ID : string;
    SurveyNumber : string;
    PropertyNumber : string;
    OwnerID : string;
    LandType : string;
    Action : string;
    Details : string;
    Timestamp : Z;
    PrevHash : string;
    Hash : string }.

Module NewEntryPayload.
Record t : Type := mk
  { SurveyNumber : string;
    PropertyNumber : string;
    OwnerID : string;
    LandType : string;
    Action : string;
    Details : string }.
End NewEntryPayload.

(** ** Conversions of the timestamp

    [rune(timestamp)] truncates the [int64] to an [int32]; [string(r)] is
    the UTF-8 encoding of the code point [r], and of U+FFFD when [r] is not
    a valid code point (the switch of [utf8.EncodeRune] on [uint32(r)]). *)

Definition rune (v : Z) : Z := (v + 2 ^ 31) mod 2 ^ 32 - 2 ^ 31.

Definition uint32 (r : Z) : Z := r mod 2 ^ 32.

Definition byte (n : Z) : ascii := ascii_of_N (Z.to_N n).

Definition encode3 (i : Z) : string :=
  String (byte (Z.lor 0xE0 (Z.shiftr i 12)))
 (String (byte (Z.lor 0x80 (Z.land (Z.shiftr i 6) 0x3F)))
 (String (byte (Z.lor 0x80 (Z.land i 0x3F))) EmptyString)).

Definition string_of_rune (r : Z) : string :=
  let i := uint32 r in
  if i <=? 0x7F then String (byte i) EmptyString
  else if i <=? 0x7FF then
    String (byte (Z.lor 0xC0 (Z.shiftr i 6)))
   (String (byte (Z.lor 0x80 (Z.land i 0x3F))) EmptyString)
  else if (0x10FFFF <? i) || ((0xD800 <=? i) && (i <=? 0xDFFF)) then encode3 0xFFFD
  else if i <=? 0xFFFF then encode3 i
  else
    String (byte (Z.lor 0xF0 (Z.shiftr i 18)))
   (String (byte (Z.lor 0x80 (Z.land (Z.shiftr i 12) 0x3F)))
   (String (byte (Z.lor 0x80 (Z.land (Z.shiftr i 6) 0x3F)))
   (String (byte (Z.lor 0x80 (Z.land i 0x3F))) EmptyString))).

(** The string hashed for a record: the fields in the order of
    [createEntry] and [verifyLedgerHandler], concatenated with [+]. *)
Definition hashInput (e : LedgerEntry) : string :=
  ID e ++ SurveyNumber e ++ PropertyNumber e ++ OwnerID e ++ LandType e
    ++ Action e ++ Details e ++ string_of_rune (rune (Timestamp e)) ++ PrevHash e.

(** ** sort.Slice

    [sort.Slice] sorts a slice of at most twelve elements with
    [insertionSortLessFunc]: element [i] is swapped leftwards while it is
    less than its left neighbour.  The sort is modelled by that insertion
    sort at every length; [acc] is the sorted prefix, last element first.

    On a longer slice Go runs pdqsort, which is not stable.  It returns the
    same slice as the insertion sort when no two elements compare equal
    and when the slice is already in order (it is then left as it is), and
    may order equal elements otherwise.  The properties below that reach
    longer slices hold for every sort that returns the elements in
    ascending order, or are stated for these two cases, or compare two runs
    on slices with the same timestamps. *)

Section InsertionSort.

Context {A : Type} (less : A -> A -> bool).

Fixpoint sink (x : A) (acc : list A) : list A :=
  match acc with
  | [] => [x]
  | y :: acc' => if less x y then y :: sink x acc' else x :: acc
  end.

Definition sortSlice (data : list A) : list A :=
  rev (fold_left (fun acc x => sink x acc) data []).


End InsertionSort.

Definition byTimestamp (a b : LedgerEntry) : bool := Timestamp a <? Timestamp b.

(** ** The entry store

    [ledgerCollection] is the list of the stored documents, in the order in
    which [Find] returns them.  A [driver] gives the outcome of the calls of
    one request to the MongoDB driver: [None] where the call succeeds. *)

Definition Collection : Type := list LedgerEntry.

Inductive error : Type := Error (msg : string).

Definition errorString (err : error) : string := let (msg) := err in msg.

Record driver : Type := mkDriver
  { FindErr : option error;
    AllErr : option error;
    InsertOneErr : option error }.

Definition reachable : driver := mkDriver None None None.

Inductive result (T : Type) : Type :=
| Ok (v : T)
| Err (err : error).
Arguments Ok {T} v.
Arguments Err {T} err.

(** The string field of a document under its bson name. *)
Definition bsonField (key : string) (e : LedgerEntry) : option string :=
  if String.eqb key "id" then Some (ID e)
  else if String.eqb key "survey_number" then Some (SurveyNumber e)
  else if String.eqb key "property_number" then Some (PropertyNumber e)
  else if String.eqb key "owner_id" then Some (OwnerID e)
  else if String.eqb key "land_type" then Some (LandType e)
  else if String.eqb key "action" then Some (Action e)
  else if String.eqb key "details" then Some (Details e)
  else if String.eqb key "prev_hash" then Some (PrevHash e)
  else if String.eqb key "hash" then Some (Hash e)
  else None.

(** [bson.M{key: value}] *)
Definition matches (key value : string) (e : LedgerEntry) : bool :=
  match bsonField key e with
  | Some v => String.eqb v value
  | None => false
  end.

(** [ledgerCollection.Find(ctx, bson.M{key: value})] followed by
    [cur.All(ctx, &entries)]. *)
Definition FindAll (d : driver) (db : Collection) (key value : string)
  : result (list LedgerEntry) :=
  match FindErr d with
  | Some err => Err err
  | None =>
      match AllErr d with
      | Some err => Err err
      | None => Ok (filter (matches key value) db)
      end
  end.

Definition InsertOne (d : driver) (db : Collection) (entry : LedgerEntry)
  : option error * Collection :=
  match InsertOneErr d with
  | Some err => (Some err, db)
  | None => (None, db ++ [entry])%list
  end.

(** ** The chain builder *)

Definition getLastHash (d : driver) (db : Collection) (propertyNumber : string)
  : string :=
  match FindAll d db "property_number" propertyNumber with
  | Err _ => "genesis"
  | Ok entries =>
      match entries with
      | [] => "genesis"
      | first :: _ =>
          let sorted := sortSlice byTimestamp entries in
          Hash (last sorted first)
      end
  end.

(** [createEntry] after [getLastHash] has returned: [now] is the value of
    [time.Now().Unix()] and [id] the string of [uuid.New()]. *)
Definition createEntryFrom (prevHash : string) (d : driver) (now : Z) (id : string)
  (payload : NewEntryPayload.t) (db : Collection)
  : LedgerEntry * option error * Collection :=
  let timestamp := now in
  let raw := id ++ NewEntryPayload.SurveyNumber payload
                ++ NewEntryPayload.PropertyNumber payload
                ++ NewEntryPayload.OwnerID payload
                ++ NewEntryPayload.LandType payload
                ++ NewEntryPayload.Action payload
                ++ NewEntryPayload.Details payload
                ++ string_of_rune (rune timestamp) in
  let hash := calculateHash (raw ++ prevHash) in
  let entry :=
    {| ID := id;
       SurveyNumber := NewEntryPayload.SurveyNumber payload;
       PropertyNumber := NewEntryPayload.PropertyNumber payload;
       OwnerID := NewEntryPayload.OwnerID payload;
       LandType := NewEntryPayload.LandType payload;
       Action := NewEntryPayload.Action payload;
       Details := NewEntryPayload.Details payload;
       Timestamp := timestamp;
       PrevHash := prevHash;
       Hash := hash |} in
  let (err, db') := InsertOne d db entry in
  (entry, err, db').

Definition createEntry (d : driver) (now : Z) (id : string)
  (payload : NewEntryPayload.t) (db : Collection)
  : LedgerEntry * option error * Collection :=
  let prevHash := getLastHash d db (NewEntryPayload.PropertyNumber payload) in
  createEntryFrom prevHash d now id payload db.

(** ** The handlers *)

Inductive JSON : Type :=
| JString (s : string)
| JBool (b : bool)
| JEntry (e : LedgerEntry).

(** [gin.H] *)
Definition H : Type := list (string * JSON).

Fixpoint get (key : string) (h : H) : option JSON :=
  match h with
  | [] => None
  | (k, v) :: h' => if String.eqb k key then Some v else get key h'
  end.

Record Response : Type := mkResponse { status : Z; body : H }.

Definition StatusOK : Z := 200.
Definition StatusBadRequest : Z := 400.
Definition StatusInternalServerError : Z := 500.

(** [bound] is the outcome of [c.BindJSON(&payload)]: [None] when the body
    does not bind. *)
Definition addEntryHandler (bound : option NewEntryPayload.t) (d : driver)
  (now : Z) (id : string) (db : Collection) : Response * Collection :=
  match bound with
  | None => (mkResponse StatusBadRequest [("error", JString "Invalid input")], db)
  | Some payload =>
      match createEntry d now id payload db with
      | (_, Some err, db') =>
          (mkResponse StatusInternalServerError [("error", JString (errorString err))], db')
      | (entry, None, db') =>
          (mkResponse StatusOK [("status", JString "success"); ("entry", JEntry entry)], db')
      end
  end.

(** The test of the loop body on [prev = chain[i-1]] and [curr = chain[i]]. *)
Definition broken (prev curr : LedgerEntry) : bool :=
  let expected :=
    calculateHash (ID curr ++ SurveyNumber curr ++ PropertyNumber curr
                     ++ OwnerID curr ++ LandType curr ++ Action curr
                     ++ Details curr ++ string_of_rune (rune (Timestamp curr))
                     ++ PrevHash curr) in
  negb (String.eqb (PrevHash curr) (Hash prev)) || negb (String.eqb (Hash curr) expected).

(** The loop from [i = 1]: [prev] is [chain[i-1]], [rest] the slice from
    [chain[i]]; the result is the final [valid]. *)
Fixpoint verifyFrom (prev : LedgerEntry) (rest : list LedgerEntry) : bool :=
  match rest with
  | [] => true
  | curr :: rest' => if broken prev curr then false else verifyFrom curr rest'
  end.

(** The digest is computed by [vm_compute] only. *)
Arguments calculateHash : simpl never.
Opaque calculateHash.

Definition verifyChain (chain : list LedgerEntry) : bool :=
  match chain with
  | [] => true
  | first :: rest => verifyFrom first rest
  end.

Definition verifyLedgerHandler (d : driver) (db : Collection) (landID : string)
  : Response :=
  match FindAll d db "survey_number" landID with
  | Err err => mkResponse StatusInternalServerError [("error", JString (errorString err))]
  | Ok chain =>
      let valid := verifyChain (sortSlice byTimestamp chain) in
      mkResponse StatusOK [("land_id", JString landID); ("valid", JBool valid)]
  end.

(** ** Executions

    A [Request] is one call of [createEntry]: the payload with the clock
    value and the identifier drawn during the call. *)

Record Request : Type := mkRequest
  { now : Z; uuid : string; payload : NewEntryPayload.t }.

(** One append with the store reachable, and appends one after the other. *)
Definition append (db : Collection) (r : Request) : Collection :=
  snd (createEntry reachable (now r) (uuid r) (payload r) db).

Definition appendAll (rs : list Request) (db : Collection) : Collection :=
  fold_left append rs db.

(** Concurrent handlers.  Each request handler runs [createEntry] in its own
    goroutine; the two calls to the store are the atomic steps: [TailRead k]
    is the [getLastHash] of request [k], [Insert k] the rest of its
    [createEntry].  [tails] holds the [prevHash] of the requests between
    their two steps. *)

Inductive Event : Type :=
| TailRead (k : nat)
| Insert (k : nat).

Record Server : Type := mkServer
  { store : Collection; tails : list (nat * string) }.

Fixpoint pending (k : nat) (ts : list (nat * string)) : option string :=
  match ts with
  | [] => None
  | (k', prevHash) :: ts' => if Nat.eqb k' k then Some prevHash else pending k ts'
  end.

Definition step (rs : list Request) (s : Server) (ev : Event) : Server :=
  match ev with
  | TailRead k =>
      match nth_error rs k with
      | Some r =>
          let prevHash :=
            getLastHash reachable (store s)
                        (NewEntryPayload.PropertyNumber (payload r)) in
          mkServer (store s) ((k, prevHash) :: tails s)
      | None => s
      end
  | Insert k =>
      match nth_error rs k, pending k (tails s) with
      | Some r, Some prevHash =>
          mkServer (snd (createEntryFrom prevHash reachable (now r) (uuid r)
                                         (payload r) (store s)))
                   (tails s)
      | _, _ => s
      end
  end.

Definition run (rs : list Request) (schedule : list Event) (db : Collection)
  : Collection :=
  store (fold_left (step rs) schedule (mkServer db [])).


(** ** Tampering with a stored record: a field set to another value. *)

Inductive Mutation : Type :=
| SetID (v : string)
| SetSurveyNumber (v : string)
| SetPropertyNumber (v : string)
| SetOwnerID (v : string)
| SetLandType (v : string)
| SetAction (v : string)
| SetDetails (v : string)
| SetTimestamp (t : Z)
| SetPrevHash (v : string).

Definition setPrevHash (v : string) (e : LedgerEntry) : LedgerEntry :=
  mkLedgerEntry (ID e) (SurveyNumber e) (PropertyNumber e) (OwnerID e)
                (LandType e) (Action e) (Details e) (Timestamp e) v (Hash e).

Definition mutate (m : Mutation) (e : LedgerEntry) : LedgerEntry :=
  match m with
  | SetID v =>
      mkLedgerEntry v (SurveyNumber e) (PropertyNumber e) (OwnerID e)
                    (LandType e) (Action e) (Details e) (Timestamp e) (PrevHash e) (Hash e)
  | SetSurveyNumber v =>
      mkLedgerEntry (ID e) v (PropertyNumber e) (OwnerID e)
                    (LandType e) (Action e) (Details e) (Timestamp e) (PrevHash e) (Hash e)
  | SetPropertyNumber v =>
      mkLedgerEntry (ID e) (SurveyNumber e) v (OwnerID e)
                    (LandType e) (Action e) (Details e) (Timestamp e) (PrevHash e) (Hash e)
  | SetOwnerID v =>
      mkLedgerEntry (ID e) (SurveyNumber e) (PropertyNumber e) v
                    (LandType e) (Action e) (Details e) (Timestamp e) (PrevHash e) (Hash e)
  | SetLandType v =>
      mkLedgerEntry (ID e) (SurveyNumber e) (PropertyNumber e) (OwnerID e)
                    v (Action e) (Details e) (Timestamp e) (PrevHash e) (Hash e)
  | SetAction v =>
      mkLedgerEntry (ID e) (SurveyNumber e) (PropertyNumber e) (OwnerID e)
                    (LandType e) v (Details e) (Timestamp e) (PrevHash e) (Hash e)
  | SetDetails v =>
      mkLedgerEntry (ID e) (SurveyNumber e) (PropertyNumber e) (OwnerID e)
                    (LandType e) (Action e) v (Timestamp e) (PrevHash e) (Hash e)
  | SetTimestamp t =>
      mkLedgerEntry (ID e) (SurveyNumber e) (PropertyNumber e) (OwnerID e)
                    (LandType e) (Action e) (Details e) t (PrevHash e) (Hash e)
  | SetPrevHash v => setPrevHash v e
  end.


(** ** Chains *)

(** The fields that enter the hash. *)
Definition tuple (e : LedgerEntry)
  : string * string * string * string * string * string * string * Z * string :=
  (ID e, SurveyNumber e, PropertyNumber e, OwnerID e, LandType e, Action e,
   Details e, Timestamp e, PrevHash e).


Definition tailHash (prev : string) (chain : list LedgerEntry) : string :=
  match chain with
  | [] => prev
  | e :: l => Hash (last l e)
  end.

(** No two records share a predecessor digest. *)
Definition forkFree (chain : list LedgerEntry) : Prop :=
  NoDup (map PrevHash chain).




Definition verdict (landID : string) (valid : bool) : Response :=
  mkResponse StatusOK [("land_id", JString landID); ("valid", JBool valid)].

(** ** A worked chain

    Three appends for property PR-001, the first two within the same second. *)

Definition demoPayload (action details : string) : NewEntryPayload.t :=
  NewEntryPayload.mk "SY-001" "PR-001" "OWN-001" "Agricultural" action details.

Definition demoRequests : list Request :=
  [ mkRequest 1700000000 "0b8f7c1e-5a7d-4c58-9d53-2f1f0f4a8e01"
              (demoPayload "AwardDeclared" "award declared");
    mkRequest 1700000000 "6f1d2a90-97c3-4e0b-8a44-cb61e7a3d502"
              (demoPayload "OwnershipUpdated" "transferred to OWN-001");
    mkRequest 1700000060 "c2a4e6b8-1d3f-4a5c-b7e9-0f2d4c6a8e03"
              (demoPayload "Compensated" "compensation paid") ].

Definition demoStore : Collection :=
  Eval vm_compute in appendAll demoRequests [].

Definition noEntry : LedgerEntry := mkLedgerEntry "" "" "" "" "" "" "" 0 "" "".

Definition demoFirst : LedgerEntry := Eval vm_compute in nth 0 demoStore noEntry.
Definition demoSecond : LedgerEntry := Eval vm_compute in nth 1 demoStore noEntry.
Definition demoThird : LedgerEntry := Eval vm_compute in nth 2 demoStore noEntry.

(** Two records whose survey and property numbers share their characters
    but not the boundary between them. *)
Definition shiftedA : LedgerEntry :=
  mkLedgerEntry "0b8f7c1e-5a7d-4c58-9d53-2f1f0f4a8e01" "SY-1" "12" "OWN-001"
                "Agricultural" "Other" "" 1700000000 "genesis" "".

Definition shiftedB : LedgerEntry :=
  mkLedgerEntry "0b8f7c1e-5a7d-4c58-9d53-2f1f0f4a8e01" "SY-11" "2" "OWN-001"
                "Agricultural" "Other" "" 1700000000 "genesis" "".

(** One property recorded under two survey numbers. *)
Definition twoSurveys : Collection :=
  Eval vm_compute in
    appendAll
      [ mkRequest 1700000000 "0b8f7c1e-5a7d-4c58-9d53-2f1f0f4a8e01"
                  (NewEntryPayload.mk "SY-001" "PR-001" "OWN-001" "Agricultural"
                                      "AwardDeclared" "north plot");
        mkRequest 1700000060 "6f1d2a90-97c3-4e0b-8a44-cb61e7a3d502"
                  (NewEntryPayload.mk "SY-002" "PR-001" "OWN-001" "Agricultural"
                                      "AwardDeclared" "south plot") ] [].

(** A payload without any field filled in. *)
Definition emptyPayload : NewEntryPayload.t := NewEntryPayload.mk "" "" "" "" "" "".

(** A store that fails the query of [getLastHash] and accepts the insert. *)
Definition flaky : driver :=
  mkDriver (Some (Error "context deadline exceeded")) None None.

(** A store that cannot be reached at all. *)
Definition down : driver :=
  mkDriver (Some (Error "server selection timeout"))
           (Some (Error "server selection timeout"))
           (Some (Error "server selection timeout")).

Definition fourthRequest : Request :=
  mkRequest 1700000120 "9e8d7c6b-5a49-4382-a71f-0e1d2c3b4a04"
            (demoPayload "Other" "boundary corrected").

(** The schedule in which both handlers read the tail before either writes. *)
Definition racing : list Event :=
  [TailRead 0%nat; TailRead 1%nat; Insert 0%nat; Insert 1%nat].

(** ** The history of a property

    [getPropertyHistoryHandler] answers either a [gin.H] or the slice of the
    records themselves. *)

Inductive Reply : Type :=
| ReplyH (status : Z) (h : H)
| ReplyEntries (status : Z) (entries : list LedgerEntry).

Definition replyStatus (r : Reply) : Z :=
  match r with
  | ReplyH st _ => st
  | ReplyEntries st _ => st
  end.

Definition StatusNotFound : Z := 404.

Definition getPropertyHistoryHandler (d : driver) (db : Collection) (property : string)
  : Reply :=
  match FindAll d db "property_number" property with
  | Err err => ReplyH StatusInternalServerError [("error", JString (errorString err))]
  | Ok history =>
      match history with
      | [] => ReplyH StatusNotFound [("error", JString "Property not found")]
      | _ :: _ => ReplyEntries StatusOK (sortSlice byTimestamp history)
      end
  end.

(** A lower-case hexadecimal digit. *)
Definition isLowerHex (c : ascii) : bool :=
  let n := Z.of_N (N_of_ascii c) in
  ((48 <=? n) && (n <=? 57)) || ((97 <=? n) && (n <=? 102)).

(** The test of [verifyLedgerHandler] on the records at [i] and [i+1]. *)
Definition linkedAt (chain : list LedgerEntry) (i : nat) : Prop :=
  forall prev curr,
    nth_error chain i = Some prev -> nth_error chain (S i) = Some curr ->
    PrevHash curr = Hash prev /\ Hash curr = calculateHash (hashInput curr).

(** ** The pages

    The admin page and the property page call the handlers through [fetch],
    which resolves to a response or throws: [None].  A JavaScript value that
    may be [undefined] is an [option]; the records of a response are taken
    as the server sent them. *)

(** [response.ok] *)
Definition ok (st : Z) : bool := (200 <=? st) && (st <=? 299).

Definition truthy (v : option JSON) : bool :=
  match v with
  | None => false
  | Some (JString s) => negb (String.eqb s "")
  | Some (JBool b) => b
  | Some (JEntry _) => true
  end.

(** [v || fallback] *)
Definition orElse (v : option JSON) (fallback : JSON) : JSON :=
  match v with
  | Some x => if truthy v then x else fallback
  | None => fallback
  end.

Module AdminPage.

Record FormData : Type := mkFormData
  { surveyNumber : string;
    propertyNumber : string;
    ownerID : string;
    landType : string;
    action : string;
    details : string }.

Definition blank : FormData :=
  mkFormData "" "" "" "Agricultural" "AwardDeclared" "".

Inductive ToastType : Type := ToastSuccess | ToastError.

Record Toast : Type := mkToast { kind : ToastType; message : JSON }.

(** The body of the POST request, as [c.BindJSON] binds it. *)
Definition requestBody (formData : FormData) : NewEntryPayload.t :=
  NewEntryPayload.mk (surveyNumber formData) (propertyNumber formData)
                     (ownerID formData) (landType formData) (action formData)
                     (details formData).

(** [handleSubmit] once [fetch] has settled: the toast shown and the form. *)
Definition handleSubmit (formData : FormData) (fetched : option Response)
  : Toast * FormData :=
  match fetched with
  | Some response =>
      if ok (status response) then
        (mkToast ToastSuccess (JString "Land entry added successfully!"), blank)
      else
        let errorData := body response in
        (mkToast ToastError
                 (orElse (get "message" errorData) (JString "Failed to add land entry")),
         formData)
  | None =>
      (mkToast ToastError (JString "Network error: Unable to connect to server"),
       formData)
  end.

(** A submission answered by [addEntryHandler]. *)
Definition submit (formData : FormData) (d : driver) (t : Z) (id : string)
  (db : Collection) : Toast * FormData * Collection :=
  let (response, db') := addEntryHandler (Some (requestBody formData)) d t id db in
  (handleSubmit formData (Some response), db').

End AdminPage.

Module PropertyPage.

Record VerificationStatus : Type := mkStatus
  { isVerifying : bool;
    isValid : option bool;
    surveyNumbers : list string }.

(** [[...new Set(xs)]]: the elements in the order of their first occurrence. *)
Definition unique (xs : list string) : list string :=
  fold_left (fun set x => if existsb (String.eqb x) set then set else (set ++ [x])%list)
            xs [].

(** One of the [verificationPromises]: [None] when it rejects, otherwise the
    value it resolves to. *)
Definition verifyOne (fetchVerify : string -> option Response) (surveyNumber : string)
  : option (option JSON) :=
  match fetchVerify surveyNumber with
  | None => None
  | Some response =>
      if ok (status response) then Some (get "valid" (body response))
      else Some (Some (JBool false))
  end.

(** [Promise.all] *)
Fixpoint all {T : Type} (promises : list (option T)) : option (list T) :=
  match promises with
  | [] => Some []
  | None :: _ => None
  | Some v :: rest =>
      match all rest with
      | Some vs => Some (v :: vs)
      | None => None
      end
  end.

(** [result === true] *)
Definition isTrue (result : option JSON) : bool :=
  match result with
  | Some (JBool true) => true
  | _ => false
  end.

(** [verifyLedger] once its requests have settled: the verification status,
    [prev] being the status before the call. *)
Definition verifyLedger (fetchVerify : string -> option Response)
  (prev : VerificationStatus) (surveyNumbers : list string) : VerificationStatus :=
  match surveyNumbers with
  | [] => prev
  | _ :: _ =>
      let uniqueSurveyNumbers := unique surveyNumbers in
      match all (map (verifyOne fetchVerify) uniqueSurveyNumbers) with
      | Some results =>
          let allValid := forallb isTrue results in
          mkStatus false (Some allValid) uniqueSurveyNumbers
      | None => mkStatus false (Some false) surveyNumbers
      end
  end.

(** [new Date(t).getTime()]: the time value, [None] for NaN. *)
Definition getTime (t : Z) : option Z :=
  if Z.abs t <=? 8640000000000000 then Some t else None.

Definition minus (x y : option Z) : option Z :=
  match x, y with
  | Some a, Some b => Some (a - b)
  | _, _ => None
  end.

(** A comparator result that moves the first argument before the second. *)
Definition negative (v : option Z) : bool :=
  match v with
  | Some n => n <? 0
  | None => false
  end.

Definition newestFirst (a b : LedgerEntry) : bool :=
  negative (minus (getTime (Timestamp b)) (getTime (Timestamp a))).

Definition oldestFirst (a b : LedgerEntry) : bool :=
  negative (minus (getTime (Timestamp a)) (getTime (Timestamp b))).

(** [Array.prototype.sort] is stable; with a comparator that orders the
    elements consistently its result is the one of the insertion sort. *)
Definition sort (before : LedgerEntry -> LedgerEntry -> bool)
  (data : list LedgerEntry) : list LedgerEntry :=
  sortSlice before data.

Record Page : Type := mkPage
  { ledgerEntries : list LedgerEntry;
    currentOwner : option string;
    isLoading : bool;
    error : option JSON;
    hasSearched : bool;
    verificationStatus : VerificationStatus }.

Definition idle : VerificationStatus := mkStatus false None [].

(** [handleSubmit] once its requests have settled: [trimmed] is
    [propertyNumber.trim()], [fetched] the outcome of the request for the
    history. *)
Definition handleSubmit (page : Page) (trimmed : string) (fetched : option Reply)
  (fetchVerify : string -> option Response) : Page :=
  if String.eqb trimmed "" then
    mkPage (ledgerEntries page) (currentOwner page) (isLoading page)
           (Some (JString "Please enter a property number"))
           (hasSearched page) (verificationStatus page)
  else
    match fetched with
    | Some response =>
        if ok (replyStatus response) then
          match response with
          | ReplyEntries _ ((_ :: _) as data) =>
              let sortedEntries := sort newestFirst data in
              let chronologicalEntries := sort oldestFirst data in
              let surveyNumbers := map SurveyNumber chronologicalEntries in
              mkPage chronologicalEntries
                     (option_map OwnerID (head sortedEntries))
                     false None true
                     (verifyLedger fetchVerify idle surveyNumbers)
          | _ => mkPage [] None false None true idle
          end
        else if replyStatus response =? 404 then
          mkPage [] None false (Some (JString "Property not found")) true idle
        else
          let message :=
            match response with
            | ReplyH _ errorData => get "message" errorData
            | ReplyEntries _ _ => None
            end in
          mkPage [] None false
                 (Some (orElse message (JString "Failed to fetch property details")))
                 true idle
    | None =>
        mkPage [] None false
               (Some (JString "Network error: Unable to connect to server"))
               true idle
    end.

(** A search whose requests the router hands to
    [getPropertyHistoryHandler] and [verifyLedgerHandler] with the number
    as the page sent it, on one store.  The routes match a number that is
    one path segment, not empty and without a slash; for another number
    the router answers 404 itself, a case [search] does not describe. *)
Definition search (page : Page) (trimmed : string) (d : driver) (db : Collection)
  : Page :=
  handleSubmit page trimmed (Some (getPropertyHistoryHandler d db trimmed))
               (fun surveyNumber => Some (verifyLedgerHandler d db surveyNumber)).

End PropertyPage.

(** The record of a fourth append to the worked chain. *)
Definition demoFourth : LedgerEntry :=
  Eval vm_compute in nth 3 (appendAll [fourthRequest] demoStore) noEntry.



(** The predecessor digest of the records of timestamp [t] set to the
    sentinel. *)
Definition genesisAt (t : Z) (y : LedgerEntry) : LedgerEntry :=
  if Timestamp y =? t then setPrevHash "genesis" y else y.

(** * Properties *)

Example calculateHash_empty :
  calculateHash "" = "e3b0c44298fc1c149afbf4c8996fb92427ae41e4649b934ca495991b7852b855".
Proof. vm_compute. reflexivity. Qed.

Example calculateHash_abc :
  calculateHash "abc" = "ba7816bf8f01cfea414140de5dae2223b00361a396177a9cb410ff61f20015ad".
Proof. vm_compute. reflexivity. Qed.

Example calculateHash_two_blocks :
  calculateHash "abcdbcdecdefdefgefghfghighijhijkijkljklmklmnlmnomnopnopq"
  = "248d6a61d20638b8e5c026930c3e6039a33ce45964ff2167f6ecedd419db06c1".
Proof. vm_compute. reflexivity. Qed.


(** ** Strings *)

Section Strings.

Local Open Scope string_scope.

Lemma append_assoc (a b c : string) : (a ++ b) ++ c = a ++ (b ++ c).
Proof. induction a as [|ch a IH]; simpl; [reflexivity | now rewrite IH]. Qed.

Lemma length_append (a b : string) :
  String.length (a ++ b) = (String.length a + String.length b)%nat.
Proof. induction a as [|ch a IH]; simpl; [reflexivity | now rewrite IH]. Qed.

Lemma append_cancel_l (a b c : string) : a ++ b = a ++ c -> b = c.
Proof.
  induction a as [|ch a IH]; simpl; intros E; [exact E | ].
  injection E as E. auto.
Qed.

(** Fields of the same length are split off a concatenation in one way. *)
Lemma append_split (a a' b b' : string) :
  String.length a = String.length a' -> a ++ b = a' ++ b' -> a = a' /\ b = b'.
Proof.
  revert a'. induction a as [|ch a IH]; intros [|ch' a'] L E; simpl in *;
    try discriminate; [now split | ].
  injection E as -> E. injection L as L.
  destruct (IH a' L E) as [-> ->]. now split.
Qed.

End Strings.

(** ** The insertion sort *)

Section SortFacts.

Local Open Scope list_scope.

Context {A : Type} (less : A -> A -> bool).

Lemma sink_perm (x : A) (acc : list A) : Permutation (sink less x acc) (x :: acc).
Proof.
  induction acc as [|y acc IH]; simpl; [reflexivity | ].
  destruct (less x y); [ | reflexivity].
  rewrite IH. apply perm_swap.
Qed.

Lemma fold_sink_perm (l acc : list A) :
  Permutation (fold_left (fun acc x => sink less x acc) l acc) (l ++ acc).
Proof.
  revert acc. induction l as [|x l IH]; intros acc; simpl; [reflexivity | ].
  rewrite IH, sink_perm. symmetry. apply Permutation_middle.
Qed.

Lemma sortSlice_perm (l : list A) : Permutation (sortSlice less l) l.
Proof.
  unfold sortSlice. rewrite <- Permutation_rev, fold_sink_perm.
  now rewrite app_nil_r.
Qed.




End SortFacts.

(** ** Sorting by an integer key *)

Section KeySort.

Local Open Scope list_scope.

Context {A : Type} (key : A -> Z).

Let less (a b : A) : bool := key a <? key b.
Let upto (a b : A) : Prop := key a <= key b.
Let downto (a b : A) : Prop := key b <= key a.

Lemma sink_descending (x : A) (acc : list A) :
  StronglySorted downto acc -> StronglySorted downto (sink less x acc).
Proof.
  induction 1 as [|y acc Hs IH Hy]; simpl.
  - repeat constructor.
  - unfold less at 1. destruct (Z.ltb_spec (key x) (key y)) as [Hlt|Hge].
    + constructor; [exact IH | ].
      eapply Permutation_Forall; [symmetry; apply sink_perm | ].
      constructor; [unfold downto; lia | exact Hy].
    + constructor; [now constructor | ].
      constructor; [exact Hge | ].
      eapply Forall_impl; [ | exact Hy]. unfold downto. intros b Hb. lia.
Qed.

Lemma fold_sink_descending (l : list A) : forall acc,
  StronglySorted downto acc ->
  StronglySorted downto (fold_left (fun acc x => sink less x acc) l acc).
Proof.
  induction l as [|x l IH]; intros acc Hs; simpl; [exact Hs | ].
  apply IH. now apply sink_descending.
Qed.

Lemma StronglySorted_snoc (R : A -> A -> Prop) (l : list A) (x : A) :
  StronglySorted R l -> Forall (fun y => R y x) l -> StronglySorted R (l ++ [x]).
Proof.
  induction 1 as [|y l Hs IH Hy]; intros Hx; simpl.
  - repeat constructor.
  - apply Forall_cons_iff in Hx as [Hyx Hx].
    constructor; [now apply IH | ].
    apply Forall_app. split; [exact Hy | now constructor].
Qed.

Lemma descending_rev (l : list A) :
  StronglySorted downto l -> StronglySorted upto (rev l).
Proof.
  induction 1 as [|y l Hs IH Hy]; simpl; [constructor | ].
  apply StronglySorted_snoc; [exact IH | ].
  apply Forall_rev. exact Hy.
Qed.

Lemma sortSlice_ascending (l : list A) : StronglySorted upto (sortSlice less l).
Proof.
  unfold sortSlice. apply descending_rev, fold_sink_descending. constructor.
Qed.

(** Two orderings of the same records by pairwise distinct keys are equal. *)
Lemma ascending_unique (s1 : list A) : forall s2,
  StronglySorted upto s1 -> StronglySorted upto s2 ->
  Permutation s1 s2 -> NoDup (map key s1) -> s1 = s2.
Proof.
  induction s1 as [|a s1 IH]; intros s2 H1 H2 HP Hnd.
  - now apply Permutation_nil in HP.
  - destruct s2 as [|b s2]; [now apply Permutation_sym, Permutation_nil in HP | ].
    apply StronglySorted_inv in H1 as [H1 Ha].
    apply StronglySorted_inv in H2 as [H2 Hb].
    inversion Hnd as [|? ? Hnotin Hnd']; subst.
    assert (E : a = b).
    { assert (Hin : In a (b :: s2)) by (eapply Permutation_in; [exact HP | now left]).
      destruct Hin as [E|Hin]; [now symmetry | ].
      assert (Hin' : In b (a :: s1))
        by (eapply Permutation_in; [symmetry; exact HP | now left]).
      destruct Hin' as [E|Hin']; [exact E | ].
      rewrite Forall_forall in Ha, Hb.
      specialize (Ha b Hin'). specialize (Hb a Hin). unfold upto in Ha, Hb.
      exfalso. apply Hnotin.
      replace (key a) with (key b) by lia. now apply in_map. }
    subst b. f_equal.
    apply IH; [exact H1 | exact H2 | | exact Hnd'].
    eapply Permutation_cons_inv; exact HP.
Qed.

Lemma sortSlice_order_free (l1 l2 : list A) :
  Permutation l1 l2 -> NoDup (map key l1) -> sortSlice less l1 = sortSlice less l2.
Proof.
  intros HP Hnd. apply ascending_unique.
  - apply sortSlice_ascending.
  - apply sortSlice_ascending.
  - now rewrite !sortSlice_perm.
  - eapply Permutation_NoDup; [ | exact Hnd].
    apply Permutation_map. symmetry. apply sortSlice_perm.
Qed.

End KeySort.

Lemma filter_perm {A : Type} (f : A -> bool) (l l' : list A) :
  Permutation l l' -> Permutation (filter f l) (filter f l').
Proof.
  induction 1 as [ | x l l' _ IH | x y l | l l' l'' _ IH1 _ IH2 ]; simpl.
  - constructor.
  - destruct (f x); [now constructor | exact IH].
  - destruct (f x), (f y); try reflexivity. apply perm_swap.
  - now rewrite IH1.
Qed.

(** ** The store and the chain *)

Section ChainFacts.

Local Open Scope list_scope.

Lemma matches_survey (v : string) (e : LedgerEntry) :
  matches "survey_number" v e = String.eqb (SurveyNumber e) v.
Proof. reflexivity. Qed.

Lemma matches_property (v : string) (e : LedgerEntry) :
  matches "property_number" v e = String.eqb (PropertyNumber e) v.
Proof. reflexivity. Qed.

Lemma FindAll_reachable (db : Collection) (key value : string) :
  FindAll reachable db key value = Ok (filter (matches key value) db).
Proof. reflexivity. Qed.

Lemma broken_iff (prev curr : LedgerEntry) :
  broken prev curr = false <->
  PrevHash curr = Hash prev /\ Hash curr = calculateHash (hashInput curr).
Proof.
  unfold broken. fold (hashInput curr).
  rewrite orb_false_iff, !negb_false_iff, !String.eqb_eq. reflexivity.
Qed.






Lemma last_cons {A : Type} (l : list A) : forall a b, last (b :: l) a = last l b.
Proof.
  induction l as [|c l IH]; intros a b; [reflexivity | ].
  change (last (b :: c :: l) a) with (last (c :: l) a). now rewrite !IH.
Qed.

Lemma tailHash_snoc (prev : string) (chain : list LedgerEntry) (e : LedgerEntry) :
  tailHash prev (chain ++ [e]) = Hash e.
Proof.
  destruct chain as [|a chain]; [reflexivity | ].
  simpl app. unfold tailHash. now rewrite last_last.
Qed.

(** The digest [getLastHash] returns is that of the last record in sorted
    order. *)
Lemma tail_of_sorted (entries : list LedgerEntry) :
  match entries with
  | [] => "genesis"
  | first :: _ => Hash (last (sortSlice byTimestamp entries) first)
  end
  = tailHash "genesis" (sortSlice byTimestamp entries).
Proof.
  destruct entries as [|a l]; [reflexivity | ].
  pose proof (sortSlice_perm byTimestamp (a :: l)) as HP.
  destruct (sortSlice byTimestamp (a :: l)) as [|e l'].
  - now apply Permutation_nil in HP.
  - unfold tailHash. now rewrite last_cons.
Qed.






End ChainFacts.

(** ** Appending *)

Section AppendFacts.

Local Open Scope list_scope.

(** The digest stored by [createEntry] is the one [verifyLedgerHandler]
    recomputes from the stored fields. *)
Lemma createEntryFrom_entry (prevHash : string) (d : driver) (t : Z) (id : string)
  (p : NewEntryPayload.t) (db : Collection) :
  let e := fst (fst (createEntryFrom prevHash d t id p db)) in
  ID e = id
  /\ SurveyNumber e = NewEntryPayload.SurveyNumber p
  /\ PropertyNumber e = NewEntryPayload.PropertyNumber p
  /\ Timestamp e = t
  /\ PrevHash e = prevHash
  /\ Hash e = calculateHash (hashInput e).
Proof.
  unfold createEntryFrom. destruct (InsertOne d db _) as [err db']. simpl.
  repeat split. unfold hashInput. simpl.
  rewrite !append_assoc. reflexivity.
Qed.

Lemma createEntryFrom_store (prevHash : string) (t : Z) (id : string)
  (p : NewEntryPayload.t) (db : Collection) :
  let r := createEntryFrom prevHash reachable t id p db in
  snd (fst r) = None /\ snd r = db ++ [fst (fst r)].
Proof. now split. Qed.






End AppendFacts.

(** ** Sequential appends verify *)

Section Verification.

Local Open Scope list_scope.








End Verification.

Section Tampering.

Local Open Scope list_scope.



(** The timestamp of a later record can be moved as well: every timestamp
    above 0x10FFFF enters the hash as U+FFFD. *)
Example timestamp_tampering_undetected :
  mutate (SetTimestamp 1700000030) demoSecond <> demoSecond
  /\ verifyLedgerHandler reachable
       [demoFirst; mutate (SetTimestamp 1700000030) demoSecond; demoThird]
       "SY-001"
     = verdict "SY-001" true.
Proof.
  split; [vm_compute; intros E; discriminate E | vm_compute; reflexivity].
Qed.

End Tampering.

(** ** The hashed string *)

Section HashInput.

Local Open Scope string_scope.

(** C2 (amended).  The hashed string is the plain concatenation of the
    fields in a fixed order, without delimiters or length prefixes.  Two
    field tuples with the same timestamp, whose ids, survey numbers,
    property numbers, owners, land types, actions and details have pairwise
    the same lengths, give different input bytes whenever they differ. *)
Theorem hashInput_injective_aligned (e1 e2 : LedgerEntry) :
  Timestamp e1 = Timestamp e2 ->
  String.length (ID e1) = String.length (ID e2) ->
  String.length (SurveyNumber e1) = String.length (SurveyNumber e2) ->
  String.length (PropertyNumber e1) = String.length (PropertyNumber e2) ->
  String.length (OwnerID e1) = String.length (OwnerID e2) ->
  String.length (LandType e1) = String.length (LandType e2) ->
  String.length (Action e1) = String.length (Action e2) ->
  String.length (Details e1) = String.length (Details e2) ->
  tuple e1 <> tuple e2 -> hashInput e1 <> hashInput e2.
Proof.
  intros Ht L1 L2 L3 L4 L5 L6 L7 Hne E. apply Hne. clear Hne.
  unfold hashInput in E. rewrite Ht in E.
  apply append_split in E as [E1 E]; [ | exact L1].
  apply append_split in E as [E2 E]; [ | exact L2].
  apply append_split in E as [E3 E]; [ | exact L3].
  apply append_split in E as [E4 E]; [ | exact L4].
  apply append_split in E as [E5 E]; [ | exact L5].
  apply append_split in E as [E6 E]; [ | exact L6].
  apply append_split in E as [E7 E]; [ | exact L7].
  apply append_cancel_l in E.
  unfold tuple. congruence.
Qed.

Lemma hashInput_injective_aligned_witness :
  hashInput demoFirst <> hashInput (mutate (SetDetails "award recalled") demoFirst).
Proof.
  apply hashInput_injective_aligned; try reflexivity.
  vm_compute. intros E. discriminate E.
Defined.

(** C2, as stated, fails: the field boundaries are not part of the bytes,
    and timestamps above 0x10FFFF all enter as U+FFFD. *)
Lemma hashInput_collision :
  (tuple shiftedA <> tuple shiftedB /\ hashInput shiftedA = hashInput shiftedB)
  /\ (tuple demoSecond <> tuple (mutate (SetTimestamp 1700000030) demoSecond)
      /\ hashInput demoSecond
         = hashInput (mutate (SetTimestamp 1700000030) demoSecond)).
Proof.
  split; (split; [vm_compute; intros E; discriminate E | vm_compute; reflexivity]).
Qed.

End HashInput.

(** ** The chain key *)

Section ChainKey.

Local Open Scope list_scope.

(** C1 (amended).  [createEntry] chains a new record to the stored records
    that have its property number, [verifyLedgerHandler] checks the stored
    records that have the requested survey number.  The two groups are the
    same, and the digest a new record is chained to is that of the last
    record verification checks, when among the stored records those with
    property number [P] are those with survey number [S]. *)
Theorem chain_groups_agree (d : driver) (db : Collection) (P S : string) :
  (forall e, In e db -> (PropertyNumber e = P <-> SurveyNumber e = S)) ->
  FindAll d db "property_number" P = FindAll d db "survey_number" S
  /\ getLastHash d db P
     = match FindAll d db "survey_number" S with
       | Ok chain => tailHash "genesis" (sortSlice byTimestamp chain)
       | Err _ => "genesis"
       end.
Proof.
  intros Hkeys.
  assert (E : FindAll d db "property_number" P = FindAll d db "survey_number" S).
  { unfold FindAll. destruct (FindErr d); [reflexivity | ].
    destruct (AllErr d); [reflexivity | ]. f_equal.
    apply filter_ext_in. intros e He.
    rewrite matches_property, matches_survey.
    destruct (String.eqb_spec (PropertyNumber e) P) as [Hp|Hp];
      destruct (String.eqb_spec (SurveyNumber e) S) as [Hs|Hs];
      try reflexivity; exfalso; apply (Hkeys e) in He; tauto. }
  split; [exact E | ].
  unfold getLastHash. rewrite E.
  destruct (FindAll d db "survey_number" S); [apply tail_of_sorted | reflexivity].
Qed.

Lemma chain_groups_agree_witness :
  FindAll reachable demoStore "property_number" "PR-001"
  = FindAll reachable demoStore "survey_number" "SY-001"
  /\ getLastHash reachable demoStore "PR-001"
     = match FindAll reachable demoStore "survey_number" "SY-001" with
       | Ok chain => tailHash "genesis" (sortSlice byTimestamp chain)
       | Err _ => "genesis"
       end.
Proof.
  apply chain_groups_agree.
  intros e [<-|[<-|[<-|[]]]]; split; reflexivity.
Defined.

(** C1, as stated, fails: the second record of [twoSurveys] was chained to
    the first, which has its property number, and verification of its
    survey number, or of its property number, does not fetch the first. *)
Lemma chain_key_mismatch :
  let first := nth 0 twoSurveys noEntry in
  let second := nth 1 twoSurveys noEntry in
  twoSurveys = [first; second]
  /\ PrevHash second = Hash first
  /\ FindAll reachable [first] "property_number" (PropertyNumber second) = Ok [first]
  /\ FindAll reachable twoSurveys "survey_number" (SurveyNumber second) = Ok [second]
  /\ FindAll reachable twoSurveys "survey_number" (PropertyNumber second) = Ok [].
Proof. vm_compute. repeat split. Qed.

End ChainKey.

(** ** The handlers' answers *)

Section Handlers.

Local Open Scope list_scope.

(** C6 (amended).  [addEntryHandler] checks no field for emptiness.  It
    answers 400 "Invalid input", the store unchanged, only when the body
    does not bind; a bound payload, empty fields or not, is persisted with
    its fields as given and answered 200 when the insert succeeds. *)
Theorem addEntry_no_validation (d : driver) (t : Z) (id : string) (db : Collection)
  (payload : NewEntryPayload.t) :
  InsertOneErr d = None ->
  addEntryHandler None d t id db
  = (mkResponse StatusBadRequest [("error", JString "Invalid input")], db)
  /\ exists entry,
       addEntryHandler (Some payload) d t id db
       = (mkResponse StatusOK [("status", JString "success"); ("entry", JEntry entry)],
          db ++ [entry])
       /\ SurveyNumber entry = NewEntryPayload.SurveyNumber payload
       /\ PropertyNumber entry = NewEntryPayload.PropertyNumber payload
       /\ OwnerID entry = NewEntryPayload.OwnerID payload
       /\ LandType entry = NewEntryPayload.LandType payload
       /\ Action entry = NewEntryPayload.Action payload
       /\ Details entry = NewEntryPayload.Details payload.
Proof.
  intros Hins. split; [reflexivity | ].
  unfold addEntryHandler, createEntry, createEntryFrom, InsertOne.
  rewrite Hins. eexists. split; [reflexivity | ]. now repeat split.
Qed.

Lemma addEntry_no_validation_witness :
  addEntryHandler None reachable 1700000000 "0b8f7c1e-5a7d-4c58-9d53-2f1f0f4a8e01" []
  = (mkResponse StatusBadRequest [("error", JString "Invalid input")], [])
  /\ exists entry,
       addEntryHandler (Some emptyPayload) reachable 1700000000
                       "0b8f7c1e-5a7d-4c58-9d53-2f1f0f4a8e01" []
       = (mkResponse StatusOK [("status", JString "success"); ("entry", JEntry entry)],
          [] ++ [entry])
       /\ SurveyNumber entry = NewEntryPayload.SurveyNumber emptyPayload
       /\ PropertyNumber entry = NewEntryPayload.PropertyNumber emptyPayload
       /\ OwnerID entry = NewEntryPayload.OwnerID emptyPayload
       /\ LandType entry = NewEntryPayload.LandType emptyPayload
       /\ Action entry = NewEntryPayload.Action emptyPayload
       /\ Details entry = NewEntryPayload.Details emptyPayload.
Proof.
  apply (addEntry_no_validation reachable 1700000000
           "0b8f7c1e-5a7d-4c58-9d53-2f1f0f4a8e01" [] emptyPayload).
  reflexivity.
Defined.

(** C6, as stated, fails: a payload with every field empty is answered 200
    and a record is stored. *)
Lemma empty_payload_accepted :
  let r := addEntryHandler (Some emptyPayload) reachable 1700000000
                           "0b8f7c1e-5a7d-4c58-9d53-2f1f0f4a8e01" [] in
  status (fst r) = StatusOK /\ List.length (snd r) = 1%nat.
Proof. vm_compute. split; reflexivity. Qed.

(** C7 (amended).  When the store is reached, [verifyLedgerHandler] answers
    200 with exactly the requested id and the boolean valid; there is no
    count of the records checked.  For an id without records valid is
    true. *)
Theorem verify_answer (d : driver) (db : Collection) (landID : string) :
  FindErr d = None -> AllErr d = None ->
  exists valid,
    verifyLedgerHandler d db landID
    = mkResponse StatusOK [("land_id", JString landID); ("valid", JBool valid)]
    /\ get "count" (body (verifyLedgerHandler d db landID)) = None
    /\ (filter (matches "survey_number" landID) db = [] -> valid = true).
Proof.
  intros Hfind Hall. unfold verifyLedgerHandler, FindAll. rewrite Hfind, Hall.
  eexists. split; [reflexivity | ]. split; [reflexivity | ].
  intros ->. reflexivity.
Qed.

Lemma verify_answer_witness :
  exists valid,
    verifyLedgerHandler reachable demoStore "does-not-exist"
    = mkResponse StatusOK [("land_id", JString "does-not-exist"); ("valid", JBool valid)]
    /\ get "count" (body (verifyLedgerHandler reachable demoStore "does-not-exist")) = None
    /\ (filter (matches "survey_number" "does-not-exist") demoStore = [] -> valid = true).
Proof. apply verify_answer; reflexivity. Defined.

(** C7, as stated, fails: the answer has no count, neither for an unknown id
    nor for a chain of three records. *)
Lemma verify_has_no_count :
  get "count" (body (verifyLedgerHandler reachable [] "does-not-exist")) = None
  /\ get "valid" (body (verifyLedgerHandler reachable [] "does-not-exist"))
     = Some (JBool true)
  /\ get "count" (body (verifyLedgerHandler reachable demoStore "SY-001")) = None.
Proof. vm_compute. repeat split. Qed.

(** C8 (amended).  When the insert fails, [createEntry] returns the error,
    [addEntryHandler] answers 500 and the store is unchanged.  A failure of
    the query for the tail is not reported: the predecessor digest falls
    back to "genesis" and the append goes on, the record being stored when
    the insert succeeds. *)
Theorem append_store_failure (d : driver) (t : Z) (id : string) (db : Collection)
  (payload : NewEntryPayload.t) :
  (forall err, InsertOneErr d = Some err ->
     snd (fst (createEntry d t id payload db)) = Some err
     /\ snd (createEntry d t id payload db) = db
     /\ addEntryHandler (Some payload) d t id db
        = (mkResponse StatusInternalServerError [("error", JString (errorString err))],
           db))
  /\ (FindErr d <> None \/ AllErr d <> None ->
      InsertOneErr d = None ->
      let entry := fst (fst (createEntry d t id payload db)) in
      PrevHash entry = "genesis"
      /\ snd (fst (createEntry d t id payload db)) = None
      /\ snd (createEntry d t id payload db) = db ++ [entry]).
Proof.
  split.
  - intros err Hins.
    unfold addEntryHandler, createEntry, createEntryFrom, InsertOne.
    rewrite Hins. now repeat split.
  - intros Hq Hins.
    assert (Hg : getLastHash d db (NewEntryPayload.PropertyNumber payload) = "genesis").
    { unfold getLastHash, FindAll.
      destruct (FindErr d); [reflexivity | ].
      destruct (AllErr d); [reflexivity | ]. destruct Hq as [Hq|Hq]; now elim Hq. }
    unfold createEntry. rewrite Hg.
    unfold createEntryFrom, InsertOne. rewrite Hins. now repeat split.
Qed.

Lemma append_store_failure_witness :
  (snd (fst (createEntry down (now fourthRequest) (uuid fourthRequest)
                         (payload fourthRequest) demoStore))
   = Some (Error "server selection timeout")
   /\ snd (createEntry down (now fourthRequest) (uuid fourthRequest)
                       (payload fourthRequest) demoStore) = demoStore
   /\ addEntryHandler (Some (payload fourthRequest)) down (now fourthRequest)
                      (uuid fourthRequest) demoStore
      = (mkResponse StatusInternalServerError
                    [("error", JString "server selection timeout")],
         demoStore))
  /\ (let entry := fst (fst (createEntry flaky (now fourthRequest) (uuid fourthRequest)
                                         (payload fourthRequest) demoStore)) in
      PrevHash entry = "genesis"
      /\ snd (fst (createEntry flaky (now fourthRequest) (uuid fourthRequest)
                               (payload fourthRequest) demoStore)) = None
      /\ snd (createEntry flaky (now fourthRequest) (uuid fourthRequest)
                          (payload fourthRequest) demoStore) = demoStore ++ [entry]).
Proof.
  split.
  - apply (proj1 (append_store_failure down (now fourthRequest) (uuid fourthRequest)
                    demoStore (payload fourthRequest))
                 (Error "server selection timeout")).
    reflexivity.
  - apply (proj2 (append_store_failure flaky (now fourthRequest) (uuid fourthRequest)
                    demoStore (payload fourthRequest))).
    + left. discriminate.
    + reflexivity.
Defined.

(** C8, as stated, fails: with the query for the tail failing and the insert
    succeeding, the append reports no error and stores a fourth record with
    predecessor "genesis"; the chain no longer verifies. *)
Lemma tail_failure_ignored :
  let r := createEntry flaky (now fourthRequest) (uuid fourthRequest)
                       (payload fourthRequest) demoStore in
  snd (fst r) = None
  /\ snd r = demoStore ++ [fst (fst r)]
  /\ PrevHash (fst (fst r)) = "genesis"
  /\ verifyLedgerHandler reachable demoStore "SY-001" = verdict "SY-001" true
  /\ verifyLedgerHandler reachable (snd r) "SY-001" = verdict "SY-001" false.
Proof. vm_compute. repeat split. Qed.

End Handlers.

(** ** The order of the records *)

Section Order.

Local Open Scope list_scope.

(** C9 (amended).  [verifyLedgerHandler] is a function of the store and the
    id, so repeated calls on an unmodified store give the same answer.  The
    records are sorted by timestamp alone, without a tie-break by id: the
    answer is the same for every order in which the store returns the
    records when the timestamps of the records of the id are pairwise
    distinct. *)
Theorem verify_order_free (d : driver) (db1 db2 : Collection) (landID : string) :
  Permutation db1 db2 ->
  NoDup (map Timestamp (filter (matches "survey_number" landID) db1)) ->
  verifyLedgerHandler d db1 landID = verifyLedgerHandler d db2 landID.
Proof.
  intros HP Hnd. unfold verifyLedgerHandler, FindAll.
  destruct (FindErr d); [reflexivity | ]. destruct (AllErr d); [reflexivity | ].
  unfold byTimestamp.
  rewrite (sortSlice_order_free Timestamp _ (filter (matches "survey_number" landID) db2));
    [reflexivity | now apply filter_perm | exact Hnd].
Qed.

Lemma verify_order_free_witness :
  verifyLedgerHandler reachable [demoSecond; demoThird; noEntry] "SY-001"
  = verifyLedgerHandler reachable [demoThird; noEntry; demoSecond] "SY-001".
Proof.
  apply verify_order_free.
  - apply Permutation_cons_append with (l := [demoThird; noEntry]).
  - vm_compute. repeat constructor; simpl; intuition discriminate.
Defined.

(** C9, as stated, fails: two records appended within one second have the
    same timestamp, and the answer depends on which the store returns
    first. *)
Lemma verify_depends_on_order :
  Permutation [demoFirst; demoSecond] [demoSecond; demoFirst]
  /\ Timestamp demoFirst = Timestamp demoSecond
  /\ verifyLedgerHandler reachable [demoFirst; demoSecond] "SY-001"
     = verdict "SY-001" true
  /\ verifyLedgerHandler reachable [demoSecond; demoFirst] "SY-001"
     = verdict "SY-001" false.
Proof.
  split; [apply perm_swap | ]. vm_compute. repeat split.
Qed.

(** A sort by comparisons sees the elements through [less] alone: it
    commutes with a change of the elements that keeps the comparisons. *)
Lemma sink_map {A B : Type} (less : A -> A -> bool) (less' : B -> B -> bool)
  (f : A -> B) (x : A) (acc : list A) :
  (forall a b, less' (f a) (f b) = less a b) ->
  sink less' (f x) (map f acc) = map f (sink less x acc).
Proof.
  intros Hf. induction acc as [|y acc IH]; simpl; [reflexivity | ].
  rewrite Hf. destruct (less x y); simpl; [now rewrite IH | reflexivity].
Qed.

Lemma sortSlice_map {A B : Type} (less : A -> A -> bool) (less' : B -> B -> bool)
  (f : A -> B) (l : list A) :
  (forall a b, less' (f a) (f b) = less a b) ->
  sortSlice less' (map f l) = map f (sortSlice less l).
Proof.
  intros Hf. unfold sortSlice. rewrite map_rev. f_equal.
  change (@nil B) with (map f []). generalize (@nil A) as acc.
  induction l as [|x l IH]; intros acc; simpl; [reflexivity | ].
  rewrite (sink_map less less' f x acc Hf). apply IH.
Qed.

(** The element whose key is below all others comes first in every
    ascending order of the elements. *)
Lemma earliest_first {A : Type} (key : A -> Z) (l1 l2 : list A) (x : A) (less : A -> A -> bool) :
  less = (fun a b => key a <? key b) ->
  (forall y, In y (l1 ++ l2) -> key x < key y) ->
  exists rest, sortSlice less (l1 ++ x :: l2) = x :: rest
               /\ Permutation rest (l1 ++ l2).
Proof.
  intros -> Hmin.
  pose proof (sortSlice_perm (fun a b => key a <? key b) (l1 ++ x :: l2)) as HP.
  pose proof (sortSlice_ascending key (l1 ++ x :: l2)) as Hasc.
  destruct (sortSlice (fun a b => key a <? key b) (l1 ++ x :: l2)) as [|h rest].
  - apply Permutation_nil in HP. now destruct l1.
  - assert (Hh : h = x).
    { assert (Hin : In h (l1 ++ x :: l2))
        by (eapply Permutation_in; [exact HP | now left]).
      assert (Hx : In x (h :: rest))
        by (eapply Permutation_in; [symmetry; exact HP | ];
            apply in_app_iff; right; now left).
      apply in_app_iff in Hin as [Hin|[Hin|Hin]]; [ | now symmetry | ];
        exfalso;
        (assert (Hlt : key x < key h) by (apply Hmin; apply in_app_iff; tauto));
        destruct Hx as [Hx|Hx]; [subst h; lia | | subst h; lia | ];
        apply StronglySorted_inv in Hasc as [_ Hasc];
        rewrite Forall_forall in Hasc; specialize (Hasc x Hx); simpl in Hasc; lia. }
    subst h. exists rest. split; [reflexivity | ].
    apply Permutation_cons_inv with (a := x).
    rewrite HP. symmetry. apply Permutation_middle.
Qed.

Lemma genesisAt_Timestamp (t : Z) (y : LedgerEntry) :
  Timestamp (genesisAt t y) = Timestamp y.
Proof. unfold genesisAt. now destruct (Timestamp y =? t). Qed.

(** C10 (amended).  The predecessor digest of the record sorted first is
    never read.  When one record of the id has a timestamp below that of
    every other record of the id, the answer is the same whatever its
    predecessor digest is, in particular the same as with "genesis".  A
    chain of a single record is answered valid = true whatever its
    predecessor digest is. *)
Theorem first_prevHash_ignored (d : driver) (db1 db2 : Collection) (e : LedgerEntry)
  (landID x : string) :
  SurveyNumber e = landID ->
  Forall (fun y => SurveyNumber y = landID -> Timestamp e < Timestamp y) db1 ->
  Forall (fun y => SurveyNumber y = landID -> Timestamp e < Timestamp y) db2 ->
  verifyLedgerHandler d (db1 ++ setPrevHash x e :: db2) landID
  = verifyLedgerHandler d (db1 ++ setPrevHash "genesis" e :: db2) landID
  /\ (filter (matches "survey_number" landID) (db1 ++ db2) = [] ->
      verifyLedgerHandler reachable (db1 ++ setPrevHash x e :: db2) landID
      = verdict landID true).
Proof.
  intros He H1 H2.
  set (others := filter (matches "survey_number" landID) db1
                 ++ filter (matches "survey_number" landID) db2).
  assert (Hlater : forall y, In y others -> Timestamp e < Timestamp y).
  { intros y Hy. unfold others in Hy. rewrite Forall_forall in H1, H2.
    apply in_app_iff in Hy as [Hy|Hy]; apply filter_In in Hy as [Hy Hm];
      rewrite matches_survey in Hm; apply String.eqb_eq in Hm; auto. }
  assert (Hfront : forall v, exists rest,
    sortSlice byTimestamp
      (filter (matches "survey_number" landID) (db1 ++ setPrevHash v e :: db2))
    = setPrevHash v e :: rest
    /\ Permutation rest others).
  { intros v. rewrite filter_app. cbn [filter].
    rewrite matches_survey. cbn [SurveyNumber setPrevHash]. rewrite He, String.eqb_refl.
    apply (earliest_first Timestamp); [reflexivity | ].
    intros y Hy. now apply Hlater. }
  assert (Hsame : forall l, (forall y, In y l -> In y others) ->
            map (genesisAt (Timestamp e)) l = l).
  { intros l Hl. rewrite <- (map_id l) at 2. apply map_ext_in.
    intros y Hy. unfold genesisAt.
    assert (Hlt : Timestamp e < Timestamp y) by (apply Hlater; now apply Hl).
    destruct (Z.eqb_spec (Timestamp y) (Timestamp e)); [lia | reflexivity]. }
  assert (Hgenesis : exists rest,
    sortSlice byTimestamp
      (filter (matches "survey_number" landID) (db1 ++ setPrevHash x e :: db2))
    = setPrevHash x e :: rest
    /\ sortSlice byTimestamp
         (filter (matches "survey_number" landID) (db1 ++ setPrevHash "genesis" e :: db2))
       = setPrevHash "genesis" e :: rest).
  { destruct (Hfront x) as (rest & Hx & HP). exists rest. split; [exact Hx | ].
    replace (filter (matches "survey_number" landID)
                    (db1 ++ setPrevHash "genesis" e :: db2))
      with (map (genesisAt (Timestamp e))
                (filter (matches "survey_number" landID)
                        (db1 ++ setPrevHash x e :: db2))).
    - rewrite (sortSlice_map byTimestamp byTimestamp (genesisAt (Timestamp e))).
      + rewrite Hx. cbn [map]. rewrite (Hsame rest).
        * f_equal. unfold genesisAt. cbn [Timestamp setPrevHash].
          now rewrite Z.eqb_refl.
        * intros y Hy. eapply Permutation_in; [exact HP | exact Hy].
      + intros a b. unfold byTimestamp. now rewrite !genesisAt_Timestamp.
    - rewrite !filter_app. cbn [filter].
      rewrite !matches_survey. cbn [SurveyNumber setPrevHash].
      rewrite He, String.eqb_refl, map_app. cbn [map].
      rewrite !Hsame.
      + f_equal. f_equal. unfold genesisAt. cbn [Timestamp setPrevHash].
        now rewrite Z.eqb_refl.
      + intros y Hy. unfold others. apply in_app_iff. now right.
      + intros y Hy. unfold others. apply in_app_iff. now left. }
  split.
  - unfold verifyLedgerHandler, FindAll.
    destruct (FindErr d); [reflexivity | ]. destruct (AllErr d); [reflexivity | ].
    destruct Hgenesis as (rest & -> & ->). cbn [verifyChain].
    destruct rest as [|curr rest]; reflexivity.
  - intros Hnone. unfold verifyLedgerHandler. rewrite FindAll_reachable.
    destruct (Hfront x) as (rest & -> & HP).
    rewrite filter_app in Hnone. fold others in Hnone. rewrite Hnone in HP.
    apply Permutation_sym, Permutation_nil in HP. subst rest. reflexivity.
Qed.

Lemma first_prevHash_ignored_witness :
  verifyLedgerHandler reachable ([noEntry] ++ setPrevHash "forged" demoFirst :: [demoThird])
                      "SY-001"
  = verifyLedgerHandler reachable
      ([noEntry] ++ setPrevHash "genesis" demoFirst :: [demoThird]) "SY-001"
  /\ verifyLedgerHandler reachable ([noEntry] ++ setPrevHash "forged" demoFirst :: [])
                         "SY-001"
     = verdict "SY-001" true.
Proof.
  split.
  - refine (proj1 (first_prevHash_ignored reachable [noEntry] [demoThird] demoFirst
                     "SY-001" "forged" _ _ _)).
    + reflexivity.
    + constructor; [ | constructor]. intros E. discriminate E.
    + constructor; [ | constructor]. intros _. vm_compute. reflexivity.
  - refine (proj2 (first_prevHash_ignored reachable [noEntry] [] demoFirst
                     "SY-001" "forged" _ _ _) _).
    + reflexivity.
    + constructor; [ | constructor]. intros E. discriminate E.
    + constructor.
    + reflexivity.
Defined.

(** C10, as stated, fails when the earliest timestamp is shared: of two
    records appended within one second the second has the earliest
    timestamp too, it is sorted second, and its predecessor digest is
    tested -- with "genesis" in its place the chain does not verify. *)
Lemma tied_earliest_prevHash_read :
  Timestamp demoSecond = Timestamp demoFirst
  /\ Forall (fun y => Timestamp demoSecond <= Timestamp y) [demoFirst; demoSecond]
  /\ verifyLedgerHandler reachable [demoFirst; demoSecond] "SY-001"
     = verdict "SY-001" true
  /\ verifyLedgerHandler reachable [demoFirst; setPrevHash "genesis" demoSecond] "SY-001"
     = verdict "SY-001" false.
Proof.
  split; [reflexivity | ]. split.
  - repeat constructor; vm_compute; intros E; discriminate E.
  - split; vm_compute; reflexivity.
Qed.

End Order.

(** ** Concurrent appends *)

Section Concurrency.

Local Open Scope list_scope.




Lemma word_length (w : Z) : String.length (Hex.word w) = 8%nat.
Proof. reflexivity. Qed.

Transparent calculateHash.


Opaque calculateHash.












End Concurrency.

(** * Further properties of the ledger server *)

(** ** The digest string *)

Section DigestFormat.

Local Open Scope list_scope.

Lemma nibble_range (x : Z) : 0 <= Z.land x 15 < 16.
Proof.
  change 15 with (Z.ones 4). rewrite Z.land_ones by lia.
  apply Z.mod_pos_bound. reflexivity.
Qed.

Lemma digit_hex (n : Z) : 0 <= n < 16 -> isLowerHex (Hex.digit n) = true.
Proof.
  intros Hn.
  assert (Hall : forallb (fun k => isLowerHex (Hex.digit (Z.of_nat k))) (seq 0 16) = true)
    by (vm_compute; reflexivity).
  rewrite forallb_forall in Hall.
  rewrite <- (Z2Nat.id n) by lia. apply Hall. apply in_seq. lia.
Qed.

Lemma word_hex (w : Z) : forallb isLowerHex (list_ascii_of_string (Hex.word w)) = true.
Proof.
  unfold Hex.word. cbn [list_ascii_of_string forallb].
  rewrite !digit_hex by apply nibble_range. reflexivity.
Qed.

Lemma chars_append (a b : string) :
  list_ascii_of_string (a ++ b) = list_ascii_of_string a ++ list_ascii_of_string b.
Proof. induction a as [|c a IH]; simpl; [reflexivity | now rewrite IH]. Qed.

Transparent calculateHash.

(** X1.  [calculateHash] returns sixty-four characters, each a decimal digit
    or a letter from a to f. *)
Theorem calculateHash_format (data : string) :
  String.length (calculateHash data) = 64%nat
  /\ forallb isLowerHex (list_ascii_of_string (calculateHash data)) = true.
Proof.
  split.
  - unfold calculateHash, Hex.EncodeToString.
    rewrite !length_append, !word_length. reflexivity.
  - unfold calculateHash, Hex.EncodeToString.
    rewrite !chars_append, !forallb_app, !word_hex. reflexivity.
Qed.

Opaque calculateHash.

End DigestFormat.

(** ** What one append does *)

Section OneAppend.

Local Open Scope list_scope.

(** X2.  [createEntry] only ever adds at the end of the store: afterwards the
    store is the store before, followed by the returned record exactly when
    the insert succeeds, and the error of the insert is what it returns.
    The record it builds carries the digest that [verifyLedgerHandler]
    recomputes from the stored fields, so it fails the test of the loop only
    through its link. *)
Theorem createEntry_effect (d : driver) (t : Z) (id : string)
  (p : NewEntryPayload.t) (db : Collection) :
  let r := createEntry d t id p db in
  let entry := fst (fst r) in
  snd (fst r) = InsertOneErr d
  /\ snd r = match InsertOneErr d with
             | None => db ++ [entry]
             | Some _ => db
             end
  /\ PrevHash entry = getLastHash d db (NewEntryPayload.PropertyNumber p)
  /\ forall prev, broken prev entry = negb (String.eqb (PrevHash entry) (Hash prev)).
Proof.
  unfold createEntry.
  set (prevHash := getLastHash d db (NewEntryPayload.PropertyNumber p)).
  pose proof (createEntryFrom_entry prevHash d t id p db) as He. cbv zeta in He.
  destruct He as (_ & _ & _ & _ & Hph & Hh).
  cbv zeta. split; [ | split; [ | split; [exact Hph | ]]].
  - unfold createEntryFrom, InsertOne. now destruct (InsertOneErr d).
  - unfold createEntryFrom, InsertOne. now destruct (InsertOneErr d).
  - intros prev. unfold broken.
    fold (hashInput (fst (fst (createEntryFrom prevHash d t id p db)))).
    rewrite <- Hh, String.eqb_refl. simpl. apply orb_false_r.
Qed.

Lemma last_in {A : Type} (l : list A) (d : A) : l <> [] -> In (last l d) l.
Proof.
  induction l as [|a l IH]; intros Hne; [contradiction | ].
  destruct l as [|b l]; [now left | ].
  right. apply IH. discriminate.
Qed.

Lemma ascending_last {A : Type} (key : A -> Z) (l : list A) :
  StronglySorted (fun a b => key a <= key b) l ->
  forall d x, In x l -> key x <= key (last l d).
Proof.
  induction 1 as [|a l Hs IH Ha]; intros d x Hx; [contradiction | ].
  rewrite last_cons.
  destruct l as [|b l]; [destruct Hx as [->|[]]; simpl; lia | ].
  destruct Hx as [->|Hx]; [ | now apply IH].
  rewrite Forall_forall in Ha. apply Ha. apply last_in. discriminate.
Qed.

(** X3.  [getLastHash] returns "genesis" when the query fails or no stored
    record has the property number; otherwise it returns the digest of a
    stored record of that property number whose timestamp no other record of
    the property number exceeds. *)
Theorem getLastHash_latest (d : driver) (db : Collection) (p : string) :
  (FindErr d <> None \/ AllErr d <> None
   \/ (forall e, In e db -> PropertyNumber e <> p) ->
   getLastHash d db p = "genesis")
  /\ (forall e0, FindErr d = None -> AllErr d = None ->
      In e0 db -> PropertyNumber e0 = p ->
      exists e, In e db /\ PropertyNumber e = p
                /\ getLastHash d db p = Hash e
                /\ forall e', In e' db -> PropertyNumber e' = p ->
                              Timestamp e' <= Timestamp e).
Proof.
  split.
  - intros Hcase. unfold getLastHash, FindAll.
    destruct (FindErr d); [reflexivity | ]. destruct (AllErr d); [reflexivity | ].
    destruct Hcase as [Hc|[Hc|Hc]]; try now elim Hc.
    destruct (filter (matches "property_number" p) db) as [|a l] eqn:Hfil; [reflexivity | ].
    exfalso. assert (Ha : In a (filter (matches "property_number" p) db))
      by (rewrite Hfil; now left).
    apply filter_In in Ha as [Ha Hm]. rewrite matches_property in Hm.
    apply String.eqb_eq in Hm. now apply (Hc a).
  - intros e0 Hfind Hall Hin Hp. unfold getLastHash, FindAll. rewrite Hfind, Hall.
    assert (H0 : In e0 (filter (matches "property_number" p) db)).
    { apply filter_In. split; [exact Hin | ].
      rewrite matches_property. now apply String.eqb_eq. }
    destruct (filter (matches "property_number" p) db) as [|a l] eqn:Hfil;
      [contradiction | ].
    cbv zeta. set (entries := a :: l) in *.
    pose proof (sortSlice_perm byTimestamp entries) as HP.
    assert (Hlast : In (last (sortSlice byTimestamp entries) a) entries).
    { eapply Permutation_in; [exact HP | ]. apply last_in.
      intros E. rewrite E in HP. apply Permutation_nil in HP. discriminate HP. }
    exists (last (sortSlice byTimestamp entries) a).
    assert (Hl : In (last (sortSlice byTimestamp entries) a)
                    (filter (matches "property_number" p) db))
      by (rewrite Hfil; exact Hlast).
    apply filter_In in Hl as [Hl1 Hl2].
    rewrite matches_property in Hl2. apply String.eqb_eq in Hl2.
    split; [exact Hl1 | ]. split; [exact Hl2 | ]. split; [reflexivity | ].
    intros e' Hin' Hp'.
    apply (ascending_last Timestamp).
    + apply (sortSlice_ascending Timestamp).
    + eapply Permutation_in; [symmetry; exact HP | ].
      subst entries. rewrite <- Hfil.
      apply filter_In. split; [exact Hin' | ].
      rewrite matches_property. now apply String.eqb_eq.
Qed.

Lemma getLastHash_latest_witness :
  getLastHash flaky demoStore "PR-001" = "genesis"
  /\ exists e, In e demoStore /\ PropertyNumber e = "PR-001"
               /\ getLastHash reachable demoStore "PR-001" = Hash e
               /\ forall e', In e' demoStore -> PropertyNumber e' = "PR-001" ->
                             Timestamp e' <= Timestamp e.
Proof.
  split.
  - apply (proj1 (getLastHash_latest flaky demoStore "PR-001")).
    left. discriminate.
  - apply (proj2 (getLastHash_latest reachable demoStore "PR-001") demoFirst).
    + reflexivity.
    + reflexivity.
    + now left.
    + reflexivity.
Defined.

End OneAppend.

(** ** What verification tests *)

Section VerifierMeaning.

Local Open Scope list_scope.

Lemma verifyFrom_iff (rest : list LedgerEntry) : forall prev,
  verifyFrom prev rest = true <-> forall i, linkedAt (prev :: rest) i.
Proof.
  induction rest as [|curr rest IH]; intros prev; simpl.
  - split; [ | reflexivity]. intros _ i p c Hp Hc.
    destruct i as [|i]; simpl in Hc; [discriminate | now destruct i].
  - destruct (broken prev curr) eqn:Hb.
    + split; [discriminate | ]. intros Hall. exfalso.
      assert (Hb' : broken prev curr = false)
        by (apply broken_iff; now apply (Hall 0%nat)).
      congruence.
    + rewrite IH. apply broken_iff in Hb. split.
      * intros Hall [|i] p c Hp Hc.
        -- simpl in Hp, Hc. injection Hp as <-. injection Hc as <-. exact Hb.
        -- now apply (Hall i).
      * intros Hall i p c Hp Hc. now apply (Hall (S i)).
Qed.

Lemma verifyChain_links (chain : list LedgerEntry) :
  verifyChain chain = true <-> forall i, linkedAt chain i.
Proof.
  destruct chain as [|first rest]; [ | apply verifyFrom_iff].
  split; [ | reflexivity]. intros _ i p c Hp. now destruct i.
Qed.

(** X4.  With the store reached, [verifyLedgerHandler] answers valid = true
    exactly when, among the records of the survey number sorted by
    timestamp, every record after the first carries the digest of the record
    before it and the digest of its own fields. *)
Theorem verify_valid_iff (db : Collection) (landID : string) :
  verifyLedgerHandler reachable db landID = verdict landID true
  <-> forall i,
        linkedAt (sortSlice byTimestamp (filter (matches "survey_number" landID) db)) i.
Proof.
  unfold verifyLedgerHandler, verdict. rewrite FindAll_reachable.
  rewrite <- verifyChain_links. split.
  - intros E. now injection E.
  - now intros ->.
Qed.

End VerifierMeaning.

(** ** Sorting a slice of distinct keys whose later part is not earlier *)

Section DistinctSplit.

Local Open Scope list_scope.

Context {A : Type} (key : A -> Z).

Lemma StronglySorted_app (R : A -> A -> Prop) (l1 l2 : list A) :
  StronglySorted R l1 -> StronglySorted R l2 ->
  (forall x y, In x l1 -> In y l2 -> R x y) ->
  StronglySorted R (l1 ++ l2).
Proof.
  induction 1 as [|a l1 Hs IH Ha]; intros H2 Hcross; simpl; [exact H2 | ].
  constructor.
  - apply IH; [exact H2 | ]. intros x y Hx Hy. apply Hcross; [now right | exact Hy].
  - apply Forall_app. split; [exact Ha | ].
    apply Forall_forall. intros y Hy. apply Hcross; [now left | exact Hy].
Qed.

(** With pairwise distinct keys there is one ascending order, so the sorted
    slice is the sorted first part followed by the sorted later part. *)
Lemma sortSlice_distinct_app (l1 l2 : list A) :
  NoDup (map key (l1 ++ l2)) ->
  (forall x y, In x l1 -> In y l2 -> key x <= key y) ->
  sortSlice (fun a b => key a <? key b) (l1 ++ l2)
  = sortSlice (fun a b => key a <? key b) l1
      ++ sortSlice (fun a b => key a <? key b) l2.
Proof.
  intros Hnd Hcross. apply (ascending_unique key).
  - apply sortSlice_ascending.
  - apply StronglySorted_app; try apply sortSlice_ascending.
    intros x y Hx Hy. apply Hcross.
    + eapply Permutation_in; [apply sortSlice_perm | exact Hx].
    + eapply Permutation_in; [apply sortSlice_perm | exact Hy].
  - rewrite !sortSlice_perm. reflexivity.
  - eapply Permutation_NoDup; [ | exact Hnd].
    apply Permutation_map. symmetry. apply sortSlice_perm.
Qed.

End DistinctSplit.

(** ** Appends and the verdict *)

Section AppendVerdict.

Local Open Scope list_scope.

Lemma createEntry_reachable (t : Z) (id : string) (p : NewEntryPayload.t)
  (db : Collection) :
  exists entry,
    createEntry reachable t id p db = (entry, None, db ++ [entry])
    /\ SurveyNumber entry = NewEntryPayload.SurveyNumber p
    /\ PropertyNumber entry = NewEntryPayload.PropertyNumber p
    /\ Timestamp entry = t
    /\ PrevHash entry = getLastHash reachable db (NewEntryPayload.PropertyNumber p)
    /\ Hash entry = calculateHash (hashInput entry).
Proof.
  unfold createEntry.
  set (prevHash := getLastHash reachable db (NewEntryPayload.PropertyNumber p)).
  pose proof (createEntryFrom_entry prevHash reachable t id p db) as He.
  pose proof (createEntryFrom_store prevHash t id p db) as Hdb.
  cbv zeta in He, Hdb.
  destruct (createEntryFrom prevHash reachable t id p db) as [[entry err] db'].
  cbn [fst snd] in *. destruct He as (_ & Hs & Hp & Ht & Hph & Hh).
  destruct Hdb as [-> ->]. exists entry. now repeat split.
Qed.

Lemma createEntry_store (d : driver) (t : Z) (id : string) (p : NewEntryPayload.t)
  (db : Collection) :
  snd (createEntry d t id p db) = db
  \/ exists entry, snd (createEntry d t id p db) = db ++ [entry]
                   /\ SurveyNumber entry = NewEntryPayload.SurveyNumber p
                   /\ PropertyNumber entry = NewEntryPayload.PropertyNumber p.
Proof.
  unfold createEntry, createEntryFrom, InsertOne.
  destruct (InsertOneErr d); [now left | right].
  eexists. split; [reflexivity | now split].
Qed.

(** X5.  An append for another survey number never changes the answer of
    [verifyLedgerHandler] for this one, and an append for another property
    number never changes the answer of [getPropertyHistoryHandler] for this
    one, whatever the outcome of the insert. *)
Theorem append_elsewhere (d d' : driver) (t : Z) (id : string)
  (p : NewEntryPayload.t) (db : Collection) (key : string) :
  (NewEntryPayload.SurveyNumber p <> key ->
   verifyLedgerHandler d' (snd (createEntry d t id p db)) key
   = verifyLedgerHandler d' db key)
  /\ (NewEntryPayload.PropertyNumber p <> key ->
      getPropertyHistoryHandler d' (snd (createEntry d t id p db)) key
      = getPropertyHistoryHandler d' db key).
Proof.
  destruct (createEntry_store d t id p db) as [-> | (entry & -> & Hs & Hp)];
    [now split | ].
  split; intros Hne.
  - unfold verifyLedgerHandler, FindAll. rewrite filter_app. simpl.
    rewrite matches_survey, Hs.
    apply String.eqb_neq in Hne. rewrite Hne, app_nil_r. reflexivity.
  - unfold getPropertyHistoryHandler, FindAll. rewrite filter_app. simpl.
    rewrite matches_property, Hp.
    apply String.eqb_neq in Hne. rewrite Hne, app_nil_r. reflexivity.
Qed.

Lemma append_elsewhere_witness :
  verifyLedgerHandler reachable
    (snd (createEntry reachable (now fourthRequest) (uuid fourthRequest)
                      (payload fourthRequest) twoSurveys)) "SY-002"
  = verifyLedgerHandler reachable twoSurveys "SY-002"
  /\ getPropertyHistoryHandler reachable
       (snd (createEntry reachable (now fourthRequest) (uuid fourthRequest)
                         (payload fourthRequest) twoSurveys)) "PR-002"
     = getPropertyHistoryHandler reachable twoSurveys "PR-002".
Proof.
  split.
  - apply (proj1 (append_elsewhere reachable reachable (now fourthRequest)
                    (uuid fourthRequest) (payload fourthRequest) twoSurveys "SY-002")).
    intros E. discriminate E.
  - apply (proj2 (append_elsewhere reachable reachable (now fourthRequest)
                    (uuid fourthRequest) (payload fourthRequest) twoSurveys "PR-002")).
    intros E. discriminate E.
Defined.

Lemma verifyFrom_snoc (rest : list LedgerEntry) : forall prev e,
  verifyFrom prev (rest ++ [e])
  = verifyFrom prev rest && negb (broken (last rest prev) e).
Proof.
  induction rest as [|c rest IH]; intros prev e; simpl app.
  - simpl. now destruct (broken prev e).
  - cbn [verifyFrom]. destruct (broken prev c); [reflexivity | ].
    now rewrite IH, last_cons.
Qed.

Lemma same_group (db : Collection) (P S : string) :
  (forall e, In e db -> (PropertyNumber e = P <-> SurveyNumber e = S)) ->
  filter (matches "property_number" P) db = filter (matches "survey_number" S) db.
Proof.
  intros Hkeys. apply filter_ext_in. intros e He.
  rewrite matches_property, matches_survey.
  destruct (String.eqb_spec (PropertyNumber e) P) as [Hp|Hp];
    destruct (String.eqb_spec (SurveyNumber e) S) as [Hs|Hs];
    try reflexivity; exfalso; apply (Hkeys e) in He; tauto.
Qed.

(** X6.  When the stored records with the property number of a payload are
    those with its survey number, their timestamps are pairwise distinct
    and all below the clock, an append with the store reachable leaves the
    answer of [verifyLedgerHandler] for that survey number as it was: a
    valid chain stays valid, whatever the order in which the store returns
    it, and a broken one is not repaired. *)
Theorem tail_append_keeps_verdict (t : Z) (id : string) (p : NewEntryPayload.t)
  (db : Collection) :
  (forall e, In e db ->
     (PropertyNumber e = NewEntryPayload.PropertyNumber p
      <-> SurveyNumber e = NewEntryPayload.SurveyNumber p)) ->
  NoDup (map Timestamp
             (filter (matches "survey_number" (NewEntryPayload.SurveyNumber p)) db)) ->
  (forall e, In e db -> SurveyNumber e = NewEntryPayload.SurveyNumber p ->
             Timestamp e < t) ->
  verifyLedgerHandler reachable (snd (createEntry reachable t id p db))
                      (NewEntryPayload.SurveyNumber p)
  = verifyLedgerHandler reachable db (NewEntryPayload.SurveyNumber p).
Proof.
  intros Hkeys Hdistinct Hclock.
  destruct (createEntry_reachable t id p db) as (entry & -> & Hs & Hp & Ht & Hph & Hh).
  cbn [snd]. unfold verifyLedgerHandler. rewrite !FindAll_reachable, filter_app.
  cbn [filter]. rewrite matches_survey, Hs, String.eqb_refl.
  set (S := NewEntryPayload.SurveyNumber p) in *.
  set (chain := filter (matches "survey_number" S) db) in *.
  assert (Hbelow : forall x, In x chain -> Timestamp x < t).
  { intros x Hx. apply filter_In in Hx as [Hx Hm].
    rewrite matches_survey in Hm. apply String.eqb_eq in Hm. now apply Hclock. }
  assert (Hsort : sortSlice byTimestamp (chain ++ [entry])
                  = sortSlice byTimestamp chain ++ [entry]).
  { unfold byTimestamp. rewrite (sortSlice_distinct_app Timestamp); [reflexivity | | ].
    - rewrite map_app. apply NoDup_app; [exact Hdistinct | repeat constructor; intros [] | ].
      intros ts Hts [E|[]]. apply in_map_iff in Hts as (x & Hx & Hin).
      apply Hbelow in Hin. simpl in E. lia.
    - intros x y Hx [<-|[]]. apply Hbelow in Hx. lia. }
  rewrite Hsort.
  unfold getLastHash in Hph. rewrite FindAll_reachable, (same_group db _ S Hkeys) in Hph.
  fold chain in Hph. rewrite tail_of_sorted in Hph.
  destruct (sortSlice byTimestamp chain) as [|first rest]; [reflexivity | ].
  cbn [app verifyChain]. rewrite verifyFrom_snoc.
  assert (Hb : broken (last rest first) entry = false)
    by (apply broken_iff; split; [exact Hph | exact Hh]).
  rewrite Hb. cbn [negb]. now rewrite andb_true_r.
Qed.

Lemma tail_append_keeps_verdict_witness :
  verifyLedgerHandler reachable
    (snd (createEntry reachable (now fourthRequest) (uuid fourthRequest)
                      (payload fourthRequest) [demoThird; demoSecond]))
    (NewEntryPayload.SurveyNumber (payload fourthRequest))
  = verifyLedgerHandler reachable [demoThird; demoSecond]
      (NewEntryPayload.SurveyNumber (payload fourthRequest)).
Proof.
  apply tail_append_keeps_verdict.
  - intros e [<-|[<-|[]]]; split; reflexivity.
  - vm_compute. repeat constructor; simpl; intuition discriminate.
  - intros e [<-|[<-|[]]] _; vm_compute; reflexivity.
Defined.

Lemma linkedAt_prefix (c1 c2 : list LedgerEntry) (i : nat) :
  linkedAt (c1 ++ c2) i -> linkedAt c1 i.
Proof.
  intros Hl prev curr Hp Hc. apply Hl.
  - rewrite nth_error_app1; [exact Hp | ]. apply nth_error_Some. congruence.
  - rewrite nth_error_app1; [exact Hc | ]. apply nth_error_Some. congruence.
Qed.

(** X7.  Removing the newest records is not detected: when the records of a
    survey number have pairwise distinct timestamps, those in the later
    part of the store are not earlier than those in the first part, and the
    whole store verifies for the survey number, so does the first part
    alone. *)
Theorem truncation_undetected (db1 db2 : Collection) (S : string) :
  NoDup (map Timestamp (filter (matches "survey_number" S) (db1 ++ db2))) ->
  (forall x y, In x db1 -> In y db2 -> SurveyNumber x = S -> SurveyNumber y = S ->
               Timestamp x <= Timestamp y) ->
  verifyLedgerHandler reachable (db1 ++ db2) S = verdict S true ->
  verifyLedgerHandler reachable db1 S = verdict S true.
Proof.
  intros Hdistinct Hord. unfold verifyLedgerHandler, verdict.
  rewrite !FindAll_reachable. rewrite filter_app in *.
  unfold byTimestamp. rewrite (sortSlice_distinct_app Timestamp).
  - intros E. injection E as E.
    rewrite (proj2 (verifyChain_links _)); [reflexivity | ]. intros i.
    apply (linkedAt_prefix _
             (sortSlice (fun a b => Timestamp a <? Timestamp b)
                        (filter (matches "survey_number" S) db2))).
    now apply verifyChain_links.
  - exact Hdistinct.
  - intros x y Hx Hy.
    apply filter_In in Hx as [Hx Hmx]. apply filter_In in Hy as [Hy Hmy].
    rewrite matches_survey in Hmx, Hmy. apply String.eqb_eq in Hmx, Hmy.
    now apply Hord.
Qed.

Lemma truncation_undetected_witness :
  verifyLedgerHandler reachable [demoThird; demoSecond] "SY-001" = verdict "SY-001" true.
Proof.
  apply (truncation_undetected [demoThird; demoSecond] [demoFourth] "SY-001").
  - vm_compute. repeat constructor; simpl; intuition discriminate.
  - intros x y [<-|[<-|[]]] [<-|[]] _ _; vm_compute; intros E; discriminate E.
  - vm_compute. reflexivity.
Defined.

End AppendVerdict.

(** ** Two handlers at once *)

Section Race.

Local Open Scope list_scope.

(** X8.  Whatever the store holds, two requests for the same property number
    whose handlers both read the tail before either inserts are stored with
    the same predecessor digest, the tail of the store before them: the
    chain forks. *)
Theorem racing_appends_fork (db : Collection) (r1 r2 : Request) :
  NewEntryPayload.PropertyNumber (payload r1)
  = NewEntryPayload.PropertyNumber (payload r2) ->
  exists e1 e2,
    run [r1; r2] racing db = db ++ [e1; e2]
    /\ PrevHash e1 = getLastHash reachable db (NewEntryPayload.PropertyNumber (payload r1))
    /\ PrevHash e2 = PrevHash e1
    /\ ~ forkFree [e1; e2].
Proof.
  intros HP. unfold run, racing.
  cbn [fold_left step nth_error store tails pending Nat.eqb].
  rewrite <- HP.
  set (g := getLastHash reachable db (NewEntryPayload.PropertyNumber (payload r1))).
  pose proof (createEntryFrom_entry g reachable (now r1) (uuid r1) (payload r1) db)
    as H1.
  pose proof (createEntryFrom_store g (now r1) (uuid r1) (payload r1) db) as S1.
  cbv zeta in H1, S1.
  destruct (createEntryFrom g reachable (now r1) (uuid r1) (payload r1) db)
    as [[e1 err1] db1].
  cbn [fst snd] in *. destruct S1 as [_ ->].
  pose proof (createEntryFrom_entry g reachable (now r2) (uuid r2) (payload r2)
                (db ++ [e1])) as H2.
  pose proof (createEntryFrom_store g (now r2) (uuid r2) (payload r2) (db ++ [e1]))
    as S2.
  cbv zeta in H2, S2.
  destruct (createEntryFrom g reachable (now r2) (uuid r2) (payload r2) (db ++ [e1]))
    as [[e2 err2] db2].
  cbn [fst snd] in *. destruct S2 as [_ ->].
  destruct H1 as (_ & _ & _ & _ & Hp1 & _). destruct H2 as (_ & _ & _ & _ & Hp2 & _).
  exists e1, e2. rewrite <- app_assoc. split; [reflexivity | ].
  split; [exact Hp1 | ]. split; [now rewrite Hp1, Hp2 | ].
  unfold forkFree. simpl. rewrite Hp1, Hp2. intros Hnd.
  inversion Hnd as [|? ? Hnotin _]. apply Hnotin. now left.
Qed.

Lemma racing_appends_fork_witness :
  exists e1 e2,
    run [fourthRequest; fourthRequest] racing demoStore = demoStore ++ [e1; e2]
    /\ PrevHash e1
       = getLastHash reachable demoStore
                     (NewEntryPayload.PropertyNumber (payload fourthRequest))
    /\ PrevHash e2 = PrevHash e1
    /\ ~ forkFree [e1; e2].
Proof. apply racing_appends_fork. reflexivity. Defined.

End Race.

(** ** The history of a property *)

Section History.

Local Open Scope list_scope.

(** X9.  With the store reached, [getPropertyHistoryHandler] answers 404
    "Property not found" exactly when no stored record has the property
    number; otherwise it answers 200 with the records of the property
    number, each once, in ascending order of timestamp. *)
Theorem history_answer (d : driver) (db : Collection) (p : string) :
  FindErr d = None -> AllErr d = None ->
  match getPropertyHistoryHandler d db p with
  | ReplyH st h =>
      st = StatusNotFound
      /\ h = [("error", JString "Property not found")]
      /\ forall e, In e db -> PropertyNumber e <> p
  | ReplyEntries st history =>
      st = StatusOK
      /\ history <> []
      /\ Permutation history (filter (matches "property_number" p) db)
      /\ StronglySorted (fun a b => Timestamp a <= Timestamp b) history
  end.
Proof.
  intros Hfind Hall. unfold getPropertyHistoryHandler, FindAll. rewrite Hfind, Hall.
  destruct (filter (matches "property_number" p) db) as [|a l] eqn:Hfil.
  - repeat split. intros e He Hp.
    assert (Hin : In e (filter (matches "property_number" p) db)).
    { apply filter_In. split; [exact He | ].
      rewrite matches_property. now apply String.eqb_eq. }
    rewrite Hfil in Hin. contradiction.
  - pose proof (sortSlice_perm byTimestamp (a :: l)) as HP.
    split; [reflexivity | ]. split; [ | split; [exact HP | ]].
    + intros E. rewrite E in HP. apply Permutation_nil in HP. discriminate HP.
    + apply (sortSlice_ascending Timestamp).
Qed.

Lemma history_answer_witness :
  match getPropertyHistoryHandler reachable (rev demoStore) "PR-001" with
  | ReplyH st h =>
      st = StatusNotFound
      /\ h = [("error", JString "Property not found")]
      /\ forall e, In e (rev demoStore) -> PropertyNumber e <> "PR-001"
  | ReplyEntries st history =>
      st = StatusOK
      /\ history <> []
      /\ Permutation history (filter (matches "property_number" "PR-001") (rev demoStore))
      /\ StronglySorted (fun a b => Timestamp a <= Timestamp b) history
  end.
Proof. apply history_answer; reflexivity. Defined.

End History.

(** * The pages and the server *)

Section AdminSubmit.

Local Open Scope list_scope.

(** X10.  A submission of the admin form answered by [addEntryHandler]: when
    the insert succeeds the page shows the success toast, clears the form,
    and the store has one more record with the six fields of the form; when
    it fails the store and the form are unchanged and the toast reads
    "Failed to add land entry" -- the error text of the server, sent under
    "error", is never shown, since the page reads "message". *)
Theorem admin_submit (formData : AdminPage.FormData) (d : driver) (t : Z)
  (id : string) (db : Collection) :
  let r := AdminPage.submit formData d t id db in
  match InsertOneErr d with
  | None =>
      fst (fst r)
      = AdminPage.mkToast AdminPage.ToastSuccess (JString "Land entry added successfully!")
      /\ snd (fst r) = AdminPage.blank
      /\ exists entry,
           snd r = db ++ [entry]
           /\ SurveyNumber entry = AdminPage.surveyNumber formData
           /\ PropertyNumber entry = AdminPage.propertyNumber formData
           /\ OwnerID entry = AdminPage.ownerID formData
           /\ LandType entry = AdminPage.landType formData
           /\ Action entry = AdminPage.action formData
           /\ Details entry = AdminPage.details formData
  | Some _ =>
      fst (fst r)
      = AdminPage.mkToast AdminPage.ToastError (JString "Failed to add land entry")
      /\ snd (fst r) = formData
      /\ snd r = db
  end.
Proof.
  unfold AdminPage.submit, addEntryHandler, createEntry, createEntryFrom, InsertOne.
  destruct (InsertOneErr d) as [err|]; cbv zeta; cbn [fst snd].
  - now repeat split.
  - split; [reflexivity | ]. split; [reflexivity | ].
    eexists. split; [reflexivity | ]. now repeat split.
Qed.

End AdminSubmit.

Section VerifyLedger.

Local Open Scope list_scope.

Import PropertyPage.

Lemma unique_from_In (xs : list string) : forall set s,
  In s (fold_left (fun set x => if existsb (String.eqb x) set then set else set ++ [x])
                  xs set)
  <-> In s set \/ In s xs.
Proof.
  induction xs as [|x xs IH]; intros set s; simpl; [tauto | ].
  rewrite IH. destruct (existsb (String.eqb x) set) eqn:Hex.
  - apply existsb_exists in Hex as (y & Hy & Hxy). apply String.eqb_eq in Hxy.
    subst y. split; [tauto | ]. intros [H|[<-|H]]; tauto.
  - rewrite in_app_iff. simpl. tauto.
Qed.

Lemma unique_In (xs : list string) (s : string) : In s (unique xs) <-> In s xs.
Proof. unfold unique. rewrite unique_from_In. simpl. tauto. Qed.

Lemma all_valid (f : string -> option (option JSON)) (xs : list string) :
  (exists results, all (map f xs) = Some results /\ forallb isTrue results = true)
  <-> forall s, In s xs -> exists v, f s = Some v /\ isTrue v = true.
Proof.
  induction xs as [|x xs IH]; simpl.
  - split; [intros _ s [] | intros _; now exists []].
  - split.
    + intros (results & Hall & Htrue) s Hs.
      destruct (f x) as [v|] eqn:Hfx; [ | discriminate].
      destruct (all (map f xs)) as [vs|]; [ | discriminate].
      injection Hall as <-. simpl in Htrue. apply andb_true_iff in Htrue as [Hv Hvs].
      destruct Hs as [<-|Hs]; [now exists v | ].
      apply (proj1 IH); [now exists vs | exact Hs].
    + intros Hall.
      destruct (Hall x (or_introl eq_refl)) as (v & -> & Hv).
      destruct (proj2 IH) as (vs & -> & Hvs); [intros s Hs; apply Hall; now right | ].
      exists (v :: vs). simpl. now rewrite Hv, Hvs.
Qed.

Lemma verifyOne_true (fetchVerify : string -> option Response) (s : string) :
  (exists v, verifyOne fetchVerify s = Some v /\ isTrue v = true)
  <-> exists response, fetchVerify s = Some response
                       /\ ok (status response) = true
                       /\ get "valid" (body response) = Some (JBool true).
Proof.
  unfold verifyOne. destruct (fetchVerify s) as [response|].
  - destruct (ok (status response)) eqn:Hok.
    + split.
      * intros (v & Hv & Htrue). injection Hv as <-. exists response.
        split; [reflexivity | ]. split; [exact Hok | ].
        destruct (get "valid" (body response)) as [[ | [|] | ]|]; try discriminate.
        reflexivity.
      * intros (r & Hr & _ & Hvalid). injection Hr as <-.
        eexists. split; [reflexivity | ]. now rewrite Hvalid.
    + split.
      * intros (v & Hv & Htrue). injection Hv as <-. discriminate.
      * intros (r & Hr & Hok' & _). injection Hr as <-. congruence.
  - split.
    + intros (v & Hv & _). discriminate.
    + intros (r & Hr & _). discriminate.
Qed.

Lemma verifyLedger_true (fetchVerify : string -> option Response)
  (prev : VerificationStatus) (sns : list string) :
  sns <> [] ->
  (isValid (verifyLedger fetchVerify prev sns) = Some true
   <-> forall s, In s sns -> exists v, verifyOne fetchVerify s = Some v /\ isTrue v = true).
Proof.
  intros Hne. destruct sns as [|s0 sns]; [contradiction | ].
  unfold verifyLedger. set (xs := s0 :: sns).
  pose proof (all_valid (verifyOne fetchVerify) (unique xs)) as Hall.
  assert (Hxs : (forall s, In s (unique xs) ->
                   exists v, verifyOne fetchVerify s = Some v /\ isTrue v = true)
                <-> (forall s, In s xs ->
                       exists v, verifyOne fetchVerify s = Some v /\ isTrue v = true)).
  { split; intros Hs s Hin; apply Hs; now apply unique_In. }
  rewrite <- Hxs, <- Hall.
  destruct (all (map (verifyOne fetchVerify) (unique xs))) as [results|]; cbn [isValid].
  - split.
    + intros E. injection E as E. now exists results.
    + intros (results' & E & Htrue). injection E as <-. now rewrite Htrue.
  - split; [discriminate | ]. intros (results' & E & _). discriminate E.
Qed.

(** X11.  After [verifyLedger] on a list of survey numbers that is not empty
    the page reports a verdict, and the verdict is valid exactly when, for
    every survey number of the list, the request was answered with a status
    from 200 to 299 and a body whose member valid is the boolean true; a
    request that fails, an error status or another value of valid makes it
    invalid. *)
Theorem verifyLedger_verdict (fetchVerify : string -> option Response)
  (prev : VerificationStatus) (sns : list string) :
  sns <> [] ->
  isVerifying (verifyLedger fetchVerify prev sns) = false
  /\ isValid (verifyLedger fetchVerify prev sns) <> None
  /\ (isValid (verifyLedger fetchVerify prev sns) = Some true
      <-> forall s, In s sns ->
            exists response, fetchVerify s = Some response
                             /\ ok (status response) = true
                             /\ get "valid" (body response) = Some (JBool true)).
Proof.
  intros Hne. split; [ | split].
  - destruct sns as [|s0 sns]; [contradiction | ]. unfold verifyLedger.
    now destruct (all _).
  - destruct sns as [|s0 sns]; [contradiction | ]. unfold verifyLedger.
    now destruct (all _).
  - rewrite (verifyLedger_true fetchVerify prev sns Hne).
    split; intros Hall s Hs; apply verifyOne_true; now apply Hall.
Qed.

Lemma verifyLedger_verdict_witness :
  isVerifying (verifyLedger (fun s => Some (verifyLedgerHandler reachable demoStore s))
                            idle ["SY-001"; "SY-001"]) = false
  /\ isValid (verifyLedger (fun s => Some (verifyLedgerHandler reachable demoStore s))
                           idle ["SY-001"; "SY-001"]) <> None
  /\ (isValid (verifyLedger (fun s => Some (verifyLedgerHandler reachable demoStore s))
                            idle ["SY-001"; "SY-001"]) = Some true
      <-> forall s, In s ["SY-001"; "SY-001"] ->
            exists response,
              Some (verifyLedgerHandler reachable demoStore s) = Some response
              /\ ok (status response) = true
              /\ get "valid" (body response) = Some (JBool true)).
Proof.
  apply (verifyLedger_verdict (fun s => Some (verifyLedgerHandler reachable demoStore s))).
  discriminate.
Defined.

End VerifyLedger.

(** ** A search on the property page *)

Section Search.

Local Open Scope list_scope.

Import PropertyPage.

Lemma sink_ext {A : Type} (less1 less2 : A -> A -> bool) (x : A) (acc : list A) :
  (forall y, In y acc -> less1 x y = less2 x y) ->
  sink less1 x acc = sink less2 x acc.
Proof.
  induction acc as [|y acc IH]; intros Hext; simpl; [reflexivity | ].
  rewrite <- (Hext y (or_introl eq_refl)).
  destruct (less1 x y); [ | reflexivity].
  f_equal. apply IH. intros z Hz. apply Hext. now right.
Qed.

Lemma fold_sink_ext {A : Type} (less1 less2 : A -> A -> bool) (l : list A) :
  forall acc,
  (forall x y, In x (l ++ acc) -> In y (l ++ acc) -> less1 x y = less2 x y) ->
  fold_left (fun acc x => sink less1 x acc) l acc
  = fold_left (fun acc x => sink less2 x acc) l acc.
Proof.
  induction l as [|x l IH]; intros acc Hext; simpl; [reflexivity | ].
  rewrite (sink_ext less1 less2 x acc).
  - apply IH. intros a b Ha Hb.
    assert (Hin : forall c, In c (l ++ sink less2 x acc) -> In c ((x :: l) ++ acc)).
    { intros c Hc. apply in_app_iff in Hc as [Hc|Hc].
      - simpl. right. apply in_app_iff. now left.
      - apply (Permutation_in _ (sink_perm less2 x acc)) in Hc.
        destruct Hc as [<-|Hc]; [now left | ]. simpl. right. apply in_app_iff. now right. }
    apply Hext; now apply Hin.
  - intros y Hy. apply Hext; [now left | ]. simpl. right. apply in_app_iff. now right.
Qed.

(** Two comparators that agree on the elements sort them alike. *)
Lemma sortSlice_ext {A : Type} (less1 less2 : A -> A -> bool) (l : list A) :
  (forall x y, In x l -> In y l -> less1 x y = less2 x y) ->
  sortSlice less1 l = sortSlice less2 l.
Proof.
  intros Hext. unfold sortSlice. f_equal. apply fold_sink_ext.
  now rewrite app_nil_r.
Qed.

Lemma oldestFirst_valid (a b : LedgerEntry) :
  Z.abs (Timestamp a) <= 8640000000000000 ->
  Z.abs (Timestamp b) <= 8640000000000000 ->
  oldestFirst a b = byTimestamp a b.
Proof.
  intros Ha Hb. unfold oldestFirst, getTime, byTimestamp.
  apply Z.leb_le in Ha, Hb. rewrite Ha, Hb. simpl.
  destruct (Z.ltb_spec (Timestamp a - Timestamp b) 0);
    destruct (Z.ltb_spec (Timestamp a) (Timestamp b)); try reflexivity; lia.
Qed.

Lemma newestFirst_valid (a b : LedgerEntry) :
  Z.abs (Timestamp a) <= 8640000000000000 ->
  Z.abs (Timestamp b) <= 8640000000000000 ->
  newestFirst a b = (- Timestamp a <? - Timestamp b).
Proof.
  intros Ha Hb. unfold newestFirst, getTime.
  apply Z.leb_le in Ha, Hb. rewrite Ha, Hb. simpl.
  destruct (Z.ltb_spec (Timestamp b - Timestamp a) 0);
    destruct (Z.ltb_spec (- Timestamp a) (- Timestamp b)); try reflexivity; lia.
Qed.

(** X12.  A search for a property number that is not blank, answered by the
    server: when the store cannot be queried the page shows "Failed to fetch
    property details", not the error text of the server; when the store
    holds no record of the property number it shows "Property not found".
    In both cases it shows no record, no owner and no verdict. *)
Theorem search_failure (page : Page) (trimmed : string) (d : driver) (db : Collection) :
  trimmed <> "" ->
  (FindErr d <> None \/ AllErr d <> None ->
   search page trimmed d db
   = mkPage [] None false (Some (JString "Failed to fetch property details")) true idle)
  /\ (FindErr d = None -> AllErr d = None ->
      (forall e, In e db -> PropertyNumber e <> trimmed) ->
      search page trimmed d db
      = mkPage [] None false (Some (JString "Property not found")) true idle).
Proof.
  intros Hne. apply String.eqb_neq in Hne.
  unfold search, handleSubmit. rewrite Hne.
  unfold getPropertyHistoryHandler, FindAll. split.
  - intros Hfail.
    destruct (FindErr d) as [err|]; [reflexivity | ].
    destruct (AllErr d) as [err|]; [reflexivity | ].
    destruct Hfail as [Hf|Hf]; now elim Hf.
  - intros -> -> Hnone.
    destruct (filter (matches "property_number" trimmed) db) as [|a l] eqn:Hfil;
      [reflexivity | exfalso].
    assert (Ha : In a (filter (matches "property_number" trimmed) db))
      by (rewrite Hfil; now left).
    apply filter_In in Ha as [Ha Hm]. rewrite matches_property in Hm.
    apply String.eqb_eq in Hm. now apply (Hnone a).
Qed.

Lemma search_failure_witness :
  search (mkPage [] None false None false idle) "PR-001" down demoStore
  = mkPage [] None false (Some (JString "Failed to fetch property details")) true idle
  /\ search (mkPage [] None false None false idle) "PR-404" reachable demoStore
     = mkPage [] None false (Some (JString "Property not found")) true idle.
Proof.
  split.
  - refine (proj1 (search_failure _ "PR-001" down demoStore _) _).
    + intros E. discriminate E.
    + left. discriminate.
  - refine (proj2 (search_failure _ "PR-404" reachable demoStore _) _ _ _).
    + intros E. discriminate E.
    + reflexivity.
    + reflexivity.
    + intros e [<-|[<-|[<-|[]]]] E; discriminate E.
Defined.

(** X13.  When the request for the history of a property number that is not
    blank is answered with a status from 200 to 299 and a list of records
    that is not empty, whose timestamps are JavaScript time values, the
    property page shows no error and the records of the list in ascending
    order of timestamp; the owner it names is the owner of a record of the
    list whose timestamp no other exceeds; and its verdict is valid exactly
    when, for the survey number of every record of the list, the request
    for verification is answered with a status from 200 to 299 and a body
    whose member valid is the boolean true. *)
Theorem search_found (page : Page) (trimmed : string) (st : Z)
  (data : list LedgerEntry) (fetchVerify : string -> option Response) :
  trimmed <> "" ->
  ok st = true ->
  data <> [] ->
  (forall e, In e data -> Z.abs (Timestamp e) <= 8640000000000000) ->
  let page' := handleSubmit page trimmed (Some (ReplyEntries st data)) fetchVerify in
  error page' = None
  /\ Permutation (ledgerEntries page') data
  /\ StronglySorted (fun a b => Timestamp a <= Timestamp b) (ledgerEntries page')
  /\ (exists e, In e data
                /\ currentOwner page' = Some (OwnerID e)
                /\ forall e', In e' data -> Timestamp e' <= Timestamp e)
  /\ (isValid (verificationStatus page') = Some true
      <-> forall e, In e data ->
            exists response,
              fetchVerify (SurveyNumber e) = Some response
              /\ ok (status response) = true
              /\ get "valid" (body response) = Some (JBool true)).
Proof.
  intros Hne Hok Hdata Htime. apply String.eqb_neq in Hne.
  assert (Hchron : sort oldestFirst data = sortSlice byTimestamp data).
  { unfold sort. apply sortSlice_ext.
    intros x y Hx Hy. apply oldestFirst_valid; now apply Htime. }
  assert (Hnewest : sort newestFirst data
                    = sortSlice (fun a b => - Timestamp a <? - Timestamp b) data).
  { unfold sort. apply sortSlice_ext.
    intros x y Hx Hy. apply newestFirst_valid; now apply Htime. }
  pose proof (sortSlice_perm byTimestamp data) as HP.
  assert (Hpage : handleSubmit page trimmed (Some (ReplyEntries st data)) fetchVerify
                  = mkPage (sortSlice byTimestamp data)
                           (option_map OwnerID (head (sort newestFirst data)))
                           false None true
                           (verifyLedger fetchVerify idle
                              (map SurveyNumber (sortSlice byTimestamp data)))).
  { unfold handleSubmit. rewrite Hne. cbn [replyStatus]. rewrite Hok.
    destruct data as [|h tl]; [contradiction | ].
    cbv zeta. rewrite Hchron. reflexivity. }
  cbv zeta. rewrite Hpage. cbn [error ledgerEntries currentOwner verificationStatus].
  split; [reflexivity | ]. split; [exact HP | ].
  split; [apply (sortSlice_ascending Timestamp) | ]. split.
  - rewrite Hnewest.
    pose proof (sortSlice_perm (fun a b => - Timestamp a <? - Timestamp b) data) as HP'.
    pose proof (sortSlice_ascending (fun e => - Timestamp e) data) as Hdesc.
    destruct (sortSlice (fun a b => - Timestamp a <? - Timestamp b) data)
      as [|top rest].
    + exfalso. apply Permutation_nil in HP'. now apply Hdata.
    + assert (Htop : In top data)
        by (eapply Permutation_in; [exact HP' | now left]).
      exists top. split; [exact Htop | ]. split; [reflexivity | ].
      intros e' He'.
      assert (Hin' : In e' (top :: rest))
        by (eapply Permutation_in; [symmetry; exact HP' | exact He']).
      apply StronglySorted_inv in Hdesc as [_ Hdesc].
      destruct Hin' as [<-|Hin']; [lia | ].
      rewrite Forall_forall in Hdesc. specialize (Hdesc e' Hin'). simpl in Hdesc. lia.
  - assert (Hnonempty : map SurveyNumber (sortSlice byTimestamp data) <> []).
    { destruct (sortSlice byTimestamp data) as [|h tl]; [ | discriminate].
      apply Permutation_nil in HP. now elim Hdata. }
    rewrite (verifyLedger_true _ idle _ Hnonempty).
    split.
    + intros Hall' e He. apply verifyOne_true. apply Hall'.
      apply in_map. eapply Permutation_in; [symmetry; exact HP | exact He].
    + intros Hall' s Hs. apply in_map_iff in Hs as (e & <- & He).
      apply verifyOne_true. apply Hall'.
      eapply Permutation_in; [exact HP | exact He].
Qed.

Lemma search_found_witness :
  let page' :=
    handleSubmit (mkPage [] None false None false idle) "PR-001"
                 (Some (ReplyEntries 200 [demoThird; demoFirst; demoSecond]))
                 (fun s => Some (verifyLedgerHandler reachable demoStore s)) in
  error page' = None
  /\ Permutation (ledgerEntries page') [demoThird; demoFirst; demoSecond]
  /\ StronglySorted (fun a b => Timestamp a <= Timestamp b) (ledgerEntries page')
  /\ (exists e, In e [demoThird; demoFirst; demoSecond]
                /\ currentOwner page' = Some (OwnerID e)
                /\ forall e', In e' [demoThird; demoFirst; demoSecond] ->
                              Timestamp e' <= Timestamp e)
  /\ (isValid (verificationStatus page') = Some true
      <-> forall e, In e [demoThird; demoFirst; demoSecond] ->
            exists response,
              Some (verifyLedgerHandler reachable demoStore (SurveyNumber e))
              = Some response
              /\ ok (status response) = true
              /\ get "valid" (body response) = Some (JBool true)).
Proof.
  apply (search_found _ "PR-001" 200 [demoThird; demoFirst; demoSecond]
           (fun s => Some (verifyLedgerHandler reachable demoStore s))).
  - intros E. discriminate E.
  - reflexivity.
  - discriminate.
  - intros e [<-|[<-|[<-|[]]]]; vm_compute; intros E; discriminate E.
Defined.

End Search.

(** ** The survey numbers verified *)

Section Surveys.

Local Open Scope list_scope.

Import PropertyPage.

Lemma unique_from_NoDup (xs : list string) : forall set,
  NoDup set ->
  NoDup (fold_left (fun set x => if existsb (String.eqb x) set then set else set ++ [x])
                   xs set).
Proof.
  induction xs as [|x xs IH]; intros set Hnd; simpl; [exact Hnd | ].
  apply IH. destruct (existsb (String.eqb x) set) eqn:Hex; [exact Hnd | ].
  apply NoDup_app; [exact Hnd | repeat constructor; intros [] | ].
  intros a Ha [E|[]]. subst a.
  assert (Hex' : existsb (String.eqb x) set = true)
    by (apply existsb_exists; exists x; split; [exact Ha | apply String.eqb_refl]).
  congruence.
Qed.

Lemma all_Some {T : Type} (f : string -> option T) (xs : list string) :
  (forall s, In s xs -> f s <> None) -> all (map f xs) <> None.
Proof.
  induction xs as [|x xs IH]; intros Hall; simpl; [discriminate | ].
  destruct (f x) eqn:Hfx; [ | now elim (Hall x (or_introl eq_refl))].
  destruct (all (map f xs)) eqn:Hrest; [discriminate | ].
  exfalso. apply IH; [ | reflexivity]. intros s Hs. apply Hall. now right.
Qed.

(** X14.  When every request of [verifyLedger] is answered, the survey
    numbers the page reports as checked are those of the list it was given,
    each once. *)
Theorem verifyLedger_surveys (fetchVerify : string -> option Response)
  (prev : VerificationStatus) (sns : list string) :
  sns <> [] ->
  (forall s, In s sns -> fetchVerify s <> None) ->
  NoDup (surveyNumbers (verifyLedger fetchVerify prev sns))
  /\ forall s, In s (surveyNumbers (verifyLedger fetchVerify prev sns)) <-> In s sns.
Proof.
  intros Hne Hall. destruct sns as [|s0 sns]; [contradiction | ].
  unfold verifyLedger. set (xs := s0 :: sns) in *.
  destruct (all (map (verifyOne fetchVerify) (unique xs))) as [results|] eqn:E.
  - cbn [surveyNumbers]. split.
    + apply unique_from_NoDup. constructor.
    + intros s. apply unique_In.
  - exfalso. revert E. apply all_Some. intros s Hs.
    apply (proj1 (unique_In _ _)) in Hs. apply Hall in Hs. unfold verifyOne.
    destruct (fetchVerify s) as [response|]; [ | contradiction].
    destruct (ok (status response)); discriminate.
Qed.

Lemma verifyLedger_surveys_witness :
  NoDup (surveyNumbers
           (verifyLedger (fun s => Some (verifyLedgerHandler reachable twoSurveys s))
                         idle ["SY-001"; "SY-002"; "SY-001"]))
  /\ forall s,
       In s (surveyNumbers
               (verifyLedger (fun s => Some (verifyLedgerHandler reachable twoSurveys s))
                             idle ["SY-001"; "SY-002"; "SY-001"]))
       <-> In s ["SY-001"; "SY-002"; "SY-001"].
Proof.
  apply (verifyLedger_surveys (fun s => Some (verifyLedgerHandler reachable twoSurveys s))).
  - discriminate.
  - intros s _. discriminate.
Defined.

End Surveys.

(** ** The timestamp in the digest *)

Section TimestampDigest.

Local Open Scope list_scope.

Lemma string_of_rune_replacement (t : Z) :
  0x10FFFF < t < 2 ^ 31 -> string_of_rune (rune t) = encode3 0xFFFD.
Proof.
  intros Ht. unfold rune.
  change (2 ^ 31) with 2147483648 in *. change (2 ^ 32) with 4294967296.
  rewrite Z.mod_small by lia.
  replace (t + 2147483648 - 2147483648) with t by lia.
  unfold string_of_rune, uint32. change (2 ^ 32) with 4294967296.
  rewrite Z.mod_small by lia.
  destruct (Z.leb_spec t 0x7F) as [H1|H1]; [lia | ].
  destruct (Z.leb_spec t 0x7FF) as [H2|H2]; [lia | ].
  destruct (Z.ltb_spec 0x10FFFF t) as [H3|H3]; [reflexivity | lia].
Qed.

(** X15.  A timestamp above 0x10FFFF and below 2^31 -- every Unix time from
    14 January 1970 to 2038 -- enters the hashed string as the three bytes
    of U+FFFD: replacing the timestamp of a record by another in that range
    changes neither the hashed string nor the outcome of the test of
    [verifyLedgerHandler] on the record. *)
Theorem timestamp_not_hashed (e : LedgerEntry) (t : Z) :
  0x10FFFF < Timestamp e < 2 ^ 31 ->
  0x10FFFF < t < 2 ^ 31 ->
  hashInput (mutate (SetTimestamp t) e) = hashInput e
  /\ forall prev, broken prev (mutate (SetTimestamp t) e) = broken prev e.
Proof.
  intros He Ht.
  assert (E : hashInput (mutate (SetTimestamp t) e) = hashInput e).
  { unfold hashInput. cbn [mutate ID SurveyNumber PropertyNumber OwnerID LandType
                           Action Details Timestamp PrevHash].
    now rewrite !string_of_rune_replacement by assumption. }
  split; [exact E | ].
  intros prev. unfold broken.
  fold (hashInput (mutate (SetTimestamp t) e)). fold (hashInput e).
  now rewrite E.
Qed.

Lemma timestamp_not_hashed_witness :
  hashInput (mutate (SetTimestamp 1700000030) demoSecond) = hashInput demoSecond
  /\ forall prev,
       broken prev (mutate (SetTimestamp 1700000030) demoSecond) = broken prev demoSecond.
Proof.
  apply timestamp_not_hashed.
  - split; vm_compute; reflexivity.
  - split; vm_compute; reflexivity.
Defined.

End TimestampDigest.

(** ** The history after appends *)

Section HistoryOfAppends.

Local Open Scope list_scope.



End HistoryOfAppends.
